(** * QPS backend (src/app.js): user store, OAuth callbacks and signup API

    A shallow embedding of the Express application in [src/app.js].  The
    MongoDB collection behind the Mongoose model [User] is an explicit
    state ([Db]) threaded through every handler; the clock ([Date.now],
    [new Date()]) and the reachability of the store are read from an
    environment ([Env]).  Handlers return the HTTP response they send
    together with the new store. *)

From Stdlib Require Import List String Ascii Bool ZArith Arith Lia.
Import ListNotations.
Local Open Scope string_scope.

(** ** JavaScript values and string primitives *)

Module Js.

(** The values of the fields the handlers read, for requests and profiles
    whose fields are absent or strings: a missing property reads as
    [undefined]; a present one is [null] or a string.  Numbers, booleans,
    arrays and objects, which a JSON body can also carry, are not
    represented, and the handlers do not type-check them: a truthy email
    that is not a string makes [email.includes] throw in register-email,
    and an object email reaches the filter of update-details as a query
    operator.  Every property below speaks of fields that are absent or
    strings. *)
Inductive jsval : Type :=
| JUndefined
| JNull
| JStr (s : string).

(** ToBoolean: [undefined], [null] and the empty string are falsy. *)
Definition truthy (v : jsval) : bool :=
  match v with
  | JStr (String _ _) => true
  | _ => false
  end.

(** The string a string value holds (the handlers read it only after a
    truthiness test has passed). *)
Definition str (v : jsval) : string :=
  match v with
  | JStr s => s
  | _ => EmptyString
  end.

(** [a || b] *)
Definition or_else (a b : jsval) : jsval :=
  if truthy a then a else b.

(** [String.prototype.includes]: [sub] occurs somewhere in [s]. *)
Fixpoint includes (s sub : string) : bool :=
  String.prefix sub s ||
  match s with
  | EmptyString => false
  | String _ s' => includes s' sub
  end.

Definition hex_digit (n : nat) : ascii :=
  if Nat.ltb n 10 then ascii_of_nat (48 + n) else ascii_of_nat (55 + n).

Definition in_range (lo hi c : nat) : bool := Nat.leb lo c && Nat.leb c hi.

(** Characters [encodeURIComponent] leaves alone:
    A-Z a-z 0-9 - _ . ! ~ * ' ( ) *)
Definition uri_unreserved (c : ascii) : bool :=
  let n := nat_of_ascii c in
  in_range 65 90 n || in_range 97 122 n || in_range 48 57 n ||
  existsb (Nat.eqb n) [45; 95; 46; 33; 126; 42; 39; 40; 41].

(** [encodeURIComponent] on a string held as its UTF-8 bytes: every byte
    that is not unreserved becomes [%XX]. *)
Fixpoint encodeURIComponent (s : string) : string :=
  match s with
  | EmptyString => EmptyString
  | String c s' =>
      if uri_unreserved c then String c (encodeURIComponent s')
      else
        let n := nat_of_ascii c in
        String "%" (String (hex_digit (n / 16)) (String (hex_digit (n mod 16))
          (encodeURIComponent s')))
  end.

End Js.
Import Js.

(** ** The environment of one request *)

Record Env : Type := mkEnv {
  now : Z;            (* the clock, in milliseconds since the epoch *)
  store_up : bool     (* whether MongoDB answers queries *)
}.

(** ** The user record store (Mongoose model [User])

    The application is written against current Mongoose (it connects
    with [mongoose.connect(mongoURI)] alone, without the connection flags
    5.x asks for, and requests LinkedIn's OpenID Connect scopes, which
    are younger than Mongoose 6).  The store therefore follows the update
    semantics of Mongoose 6 and later: a top-level update object is sent
    as [$set], keys whose value is [undefined] are stripped from it, and
    the schema defaults are applied to the document an upsert inserts
    ([setDefaultsOnInsert] is on by default). *)

Module Store.

(** [userSchema], plus the [_id] MongoDB assigns. *)
Record User : Type := mkUser {
  _id : nat;
  email : string;
  fullName : option string;
  country : option string;
  profession : option string;
  source : option string;
  provider : string;
  registeredAt : Z
}.

(** The collection, in insertion order, and the next fresh [_id]. *)
Record Db : Type := mkDb {
  docs : list User;
  next_id : nat
}.

Definition empty_db : Db := {| docs := []; next_id := 0 |}.

(** An update document as the handlers build it.  A key that is not
    written in the object literal is [None] / [JUndefined]. *)
Record Update : Type := mkUpdate {
  set_email : option string;
  set_provider : option string;
  set_fullName : jsval;
  set_country : jsval;
  set_profession : jsval;
  set_source : jsval
}.

Record Options : Type := mkOptions {
  upsert : bool;
  new : bool
}.

(** One key of the [$set] Mongoose sends.  Mongoose removes a key whose
    value is [undefined] from the update before it reaches MongoDB (what
    the [omitUndefined] option of 5.x did is unconditional since 6.0), so
    the stored value stays; [null] is written as such and reads back as
    an absent value. *)
Definition assign (v : jsval) (old : option string) : option string :=
  match v with
  | JUndefined => old
  | JNull => None
  | JStr s => Some s
  end.

Definition apply_update (upd : Update) (u : User) : User :=
  {| _id := _id u;
     email := match set_email upd with Some e => e | None => email u end;
     fullName := assign (set_fullName upd) (fullName u);
     country := assign (set_country upd) (country u);
     profession := assign (set_profession upd) (profession u);
     source := assign (set_source upd) (source u);
     provider := match set_provider upd with Some p => p | None => provider u end;
     registeredAt := registeredAt u |}.

(** The document an upsert inserts: the filter's [email], the schema
    defaults ([provider: 'local'], [registeredAt: Date.now]) for the paths
    the update does not set, then the update itself. *)
Definition new_doc (t : Z) (id : nat) (e : string) (upd : Update) : User :=
  apply_update upd
    {| _id := id; email := e; fullName := None; country := None;
       profession := None; source := None; provider := "local";
       registeredAt := t |}.

(** [findOne({ email: e })]: the first document with that email. *)
Fixpoint findOne (e : string) (l : list User) : option User :=
  match l with
  | [] => None
  | u :: l' => if String.eqb (email u) e then Some u else findOne e l'
  end.

(** Replace the first document with email [e] by its image under [f]. *)
Fixpoint modify_first (e : string) (f : User -> User) (l : list User) : list User :=
  match l with
  | [] => []
  | u :: l' =>
      if String.eqb (email u) e then f u :: l' else u :: modify_first e f l'
  end.

(** [findOneAndUpdate({ email: e }, upd, opts)] on a reachable store: the
    returned document (or [null]) and the new collection. *)
Definition findOneAndUpdate (t : Z) (e : string) (upd : Update) (opts : Options)
    (db : Db) : option User * Db :=
  match findOne e (docs db) with
  | Some u =>
      (Some (if new opts then apply_update upd u else u),
       {| docs := modify_first e (apply_update upd) (docs db);
          next_id := next_id db |})
  | None =>
      if upsert opts then
        let u := new_doc t (next_id db) e upd in
        (if new opts then Some u else None,
         {| docs := docs db ++ [u]; next_id := S (next_id db) |})
      else (None, db)
  end.

(** [findById(id)] *)
Definition findById (id : nat) (db : Db) : option User :=
  find (fun u => Nat.eqb (_id u) id) (docs db).

End Store.
Import Store.

(** ** Failing computations over the store

    An [async] handler body either completes or throws; what it already
    wrote to the store stays written. *)

Inductive Result (A : Type) : Type :=
| Ok (a : A)
| Throw (err : string).
Arguments Ok {A} a.
Arguments Throw {A} err.

Definition M (A : Type) : Type := Db -> Result A * Db.

Definition ret {A} (a : A) : M A := fun db => (Ok a, db).

Definition throw {A} (err : string) : M A := fun db => (Throw err, db).

Definition bind {A B} (m : M A) (k : A -> M B) : M B :=
  fun db =>
    match m db with
    | (Ok a, db') => k a db'
    | (Throw err, db') => (Throw err, db')
    end.

Notation "x <- m ;; k" := (bind m (fun x => k))
  (at level 61, m at next level, right associativity).

(** [try { m } catch (err) { h err }] where the handler only builds a value. *)
Definition try_catch {A} (m : M A) (h : string -> A) : Db -> A * Db :=
  fun db =>
    match m db with
    | (Ok a, db') => (a, db')
    | (Throw err, db') => (h err, db')
    end.

(** [await User.findOneAndUpdate({ email }, upd, opts)] *)
Definition User_findOneAndUpdate (env : Env) (e : string) (upd : Update)
    (opts : Options) : M (option User) :=
  fun db =>
    if store_up env then
      let (r, db') := findOneAndUpdate (now env) e upd opts db in (Ok r, db')
    else (Throw "MongoDB unreachable", db).

(** [await User.findById(id)] *)
Definition User_findById (env : Env) (id : nat) : M (option User) :=
  fun db =>
    if store_up env then (Ok (findById id db), db)
    else (Throw "MongoDB unreachable", db).

(** Reading a property of a document that may be [null]. *)
Definition prop {A} (f : User -> A) (u : option User) : M A :=
  match u with
  | Some u => ret (f u)
  | None => throw "TypeError: Cannot read properties of null"
  end.

(** ** HTTP responses *)

Inductive JsonBody : Type :=
| ErrorBody (error : string)                        (* { error } *)
| SeededBody (message : string) (userId : nat)      (* { message, userId } *)
| SavedBody (message : string) (data : option User)  (* { message, data } *)
| HealthBody (status : string) (timestamp : Z).     (* { status, timestamp } *)

Inductive Response : Type :=
| Json (status : nat) (body : JsonBody)   (* res.status(n).json(body) *)
| Redirect (location : string)            (* res.redirect(location) *)
| ErrorPage (status : nat).               (* Express's final error handler *)

Definition status_of (r : Response) : nat :=
  match r with
  | Json n _ => n
  | Redirect _ => 302
  | ErrorPage n => n
  end.

(** ** Passport: strategies, verify callbacks and sessions *)

Module Passport.

(** The profile a strategy hands to its verify callback. *)
Record EmailEntry : Type := mkEmailEntry { value : jsval }.

Record Profile : Type := mkProfile {
  displayName : jsval;
  email_claim : jsval;                  (* profile.email *)
  emails : option (list EmailEntry)     (* profile.emails, possibly missing *)
}.

(** [profile.emails?.[0]?.value] *)
Definition first_email (profile : Profile) : jsval :=
  match emails profile with
  | Some (entry :: _) => value entry
  | _ => JUndefined
  end.

(** What a verify callback passes to [done]. *)
Inductive Verified : Type :=
| DoneError (err : string)          (* done(err) *)
| DoneUser (user : option User).    (* done(null, user) *)

(** [passport.serializeUser((user, done) => done(null, user._id))] *)
Definition serializeUser (user : User) : nat := _id user.

(** [passport.deserializeUser]: the session's id back to a user. *)
Definition deserializeUser (env : Env) (id : nat) : Db -> Verified * Db :=
  try_catch
    (user <- User_findById env id ;;
     ret (DoneUser user))
    DoneError.

(** How [passport.authenticate(name, { session: true, failureRedirect })]
    ends, by what the verify callback passed to [done]:
    - [done(err)]: the strategy calls [error(err)], which is [next(err)];
      no redirect is made and nobody is logged in;
    - [done(null, false)] (no user): the strategy calls [fail], and the
      request is redirected to [failureRedirect];
    - [done(null, user)]: the user is logged in ([serializeUser] binds the
      session to it) and the route's own handler runs. *)
Inductive AuthResult : Type :=
| AuthError (err : string)
| AuthFail (redirect : string)
| AuthSuccess (user : User).

Definition authenticate (verify : Profile -> Db -> Verified * Db)
    (failureRedirect : string) (profile : Profile) (db : Db) : AuthResult * Db :=
  match verify profile db with
  | (DoneError err, db') => (AuthError err, db')
  | (DoneUser None, db') => (AuthFail failureRedirect, db')
  | (DoneUser (Some user), db') => (AuthSuccess user, db')
  end.

End Passport.
Import Passport.

(** ** The application *)

Module App.

(** What handling one request yields: the response, the user id the
    request's session was bound to by a login (if any), the store. *)
Record Outcome : Type := mkOutcome {
  response : Response;
  login : option nat;
  store : Db
}.

(** Google strategy, verify callback. *)
Definition google_verify (env : Env) (profile : Profile) : Db -> Verified * Db :=
  try_catch
    (let email := first_email profile in
     if negb (truthy email) then ret (DoneError "No email in Google profile")
     else
       user <- User_findOneAndUpdate env (str email)
                 {| set_email := Some (str email); set_provider := Some "google";
                    set_fullName := displayName profile;
                    set_country := JUndefined; set_profession := JUndefined;
                    set_source := JUndefined |}
                 {| upsert := true; new := true |} ;;
       ret (DoneUser user))
    DoneError.

(** LinkedIn strategy, verify callback. *)
Definition linkedin_verify (env : Env) (profile : Profile) : Db -> Verified * Db :=
  try_catch
    (let email := or_else (email_claim profile) (first_email profile) in
     if negb (truthy email) then ret (DoneError "No email in LinkedIn profile")
     else
       user <- User_findOneAndUpdate env (str email)
                 {| set_email := Some (str email); set_provider := Some "linkedin";
                    set_fullName := displayName profile;
                    set_country := JUndefined; set_profession := JUndefined;
                    set_source := JUndefined |}
                 {| upsert := true; new := true |} ;;
       ret (DoneUser user))
    DoneError.

(** The two callback routes: [passport.authenticate] and then the handler
    that redirects to the details page.  No error-handling middleware is
    installed, so an error given to [next] is answered by Express's own
    handler with status 500. *)
Definition oauth_callback (verify : Profile -> Db -> Verified * Db)
    (profile : Profile) (db : Db) : Outcome :=
  match authenticate verify "/error" profile db with
  | (AuthSuccess user, db') =>
      {| response :=
           Redirect ("https://quantumshell.live/details?email="
                     ++ encodeURIComponent (email user));
         login := Some (serializeUser user);
         store := db' |}
  | (AuthFail url, db') =>
      {| response := Redirect url; login := None; store := db' |}
  | (AuthError _, db') =>
      {| response := ErrorPage 500; login := None; store := db' |}
  end.

Definition google_callback (env : Env) : Profile -> Db -> Outcome :=
  oauth_callback (google_verify env).

Definition linkedin_callback (env : Env) : Profile -> Db -> Outcome :=
  oauth_callback (linkedin_verify env).

(** POST /api/register-email *)
Record RegisterBody : Type := mkRegisterBody { rb_email : jsval }.

Definition register_email (env : Env) (body : RegisterBody) : Db -> Response * Db :=
  try_catch
    (let email := rb_email body in
     if negb (truthy email) || negb (includes (str email) "@") then
       ret (Json 400 (ErrorBody "Valid email required"))
     else
       user <- User_findOneAndUpdate env (str email)
                 {| set_email := Some (str email); set_provider := None;
                    set_fullName := JUndefined; set_country := JUndefined;
                    set_profession := JUndefined; set_source := JUndefined |}
                 {| upsert := true; new := true |} ;;
       userId <- prop _id user ;;
       ret (Json 200 (SeededBody "✅ Logic Seeded" userId)))
    (fun _ => Json 500 (ErrorBody "Server error")).

(** POST /api/update-details *)
Record DetailsBody : Type := mkDetailsBody {
  db_email : jsval;
  db_fullName : jsval;
  db_country : jsval;
  db_profession : jsval;
  db_source : jsval
}.

Definition update_details (env : Env) (body : DetailsBody) : Db -> Response * Db :=
  try_catch
    (let email := db_email body in
     if negb (truthy email) then ret (Json 400 (ErrorBody "Email required"))
     else
       updatedUser <- User_findOneAndUpdate env (str email)
                        {| set_email := None; set_provider := None;
                           set_fullName := db_fullName body;
                           set_country := db_country body;
                           set_profession := db_profession body;
                           set_source := db_source body |}
                        {| upsert := false; new := true |} ;;
       ret (Json 200 (SavedBody
              "Details saved. You're now part of QPS waitlist!" updatedUser)))
    (fun _ => Json 500 (ErrorBody "System Latency Error")).

(** GET /health *)
Definition health (env : Env) : Response :=
  Json 200 (HealthBody "QPS Kernel Active" (now env)).

(** The routes with a handler of their own.  A callback request stands
    for the identity assertion the provider returned for it. *)
Inductive Route : Type :=
| GET_auth_google_callback (profile : Profile)
| GET_auth_linkedin_callback (profile : Profile)
| POST_api_register_email (body : RegisterBody)
| POST_api_update_details (body : DetailsBody)
| GET_health.

(** A request: the user id its session is bound to (if it has a session
    with a logged-in user) and the route it asks for. *)
Record Request : Type := mkRequest {
  session_user : option nat;
  route : Route
}.

Definition dispatch (env : Env) (r : Route) (db : Db) : Outcome :=
  match r with
  | GET_auth_google_callback profile => google_callback env profile db
  | GET_auth_linkedin_callback profile => linkedin_callback env profile db
  | POST_api_register_email body =>
      let (res, db') := register_email env body db in
      {| response := res; login := None; store := db' |}
  | POST_api_update_details body =>
      let (res, db') := update_details env body db in
      {| response := res; login := None; store := db' |}
  | GET_health => {| response := health env; login := None; store := db |}
  end.

(** The middleware chain in front of every route:
    [app.use(passport.session())] loads the session's user through
    [deserializeUser] before the route's handler runs, and an error there
    ends the request. *)
Definition app (env : Env) (req : Request) (db : Db) : Outcome :=
  match session_user req with
  | None => dispatch env (route req) db
  | Some id =>
      match deserializeUser env id db with
      | (DoneError _, db') =>
          {| response := ErrorPage 500; login := None; store := db' |}
      | (DoneUser _, db') => dispatch env (route req) db'
      end
  end.

(** The store after a sequence of requests, each with its environment. *)
Definition run (reqs : list (Env * Request)) (db : Db) : Db :=
  fold_left (fun db er => store (app (fst er) (snd er) db)) reqs db.

End App.
Import App.

(** ** Vocabulary of the properties *)

(** At most one document per email. *)
Definition unique_emails (db : Db) : Prop := NoDup (map email (docs db)).

(** The number of documents whose email is [e]. *)
Definition count_email (e : string) (db : Db) : nat :=
  List.length (filter (fun u => String.eqb (email u) e) (docs db)).

(** The character [c] occurs in [s]. *)
Definition has_char (c : ascii) (s : string) : Prop :=
  In c (list_ascii_of_string s).

(** A request field that is absent: not sent, or sent as [null]. *)
Definition absent (v : jsval) : Prop := v = JUndefined \/ v = JNull.

(** What a stored field holds after an update was sent the request value
    [v] for it: the string, nothing for [null], the old value when the
    request did not carry the field. *)
Definition written (v : jsval) (old after : option string) : Prop :=
  match v with
  | JStr s => after = Some s
  | JNull => after = None
  | JUndefined => after = old
  end.

(** Every document has an [_id] of its own, and all of them were handed
    out already. *)
Definition ids_fresh (db : Db) : Prop :=
  NoDup (map _id (docs db)) /\ Forall (fun u => _id u < next_id db) (docs db).

(** An email register-email accepts: a string in which '@' occurs. *)
Definition valid_email (v : jsval) : Prop :=
  exists e, v = JStr e /\ has_char "@" e.

(** [sub] is a contiguous part of [s]. *)
Definition substring_of (sub s : string) : Prop :=
  exists pre post, s = pre ++ sub ++ post.

(** The columns of a document that only its creation decides. *)
Definition identity_of (u : User) : nat * string * string * Z :=
  (_id u, email u, provider u, registeredAt u).

(** The email a route reads from its request. *)
Definition route_key (r : Route) : jsval :=
  match r with
  | GET_auth_google_callback profile => first_email profile
  | GET_auth_linkedin_callback profile =>
      or_else (email_claim profile) (first_email profile)
  | POST_api_register_email body => rb_email body
  | POST_api_update_details body => db_email body
  | GET_health => JUndefined
  end.

(** The one write a route asks of the store when its guard passes: the
    key, the update document and the options. *)
Definition route_write (r : Route) : option (string * Update * Options) :=
  let oauth (email : jsval) (provider_name : string) (name : jsval) :=
    if truthy email then
      Some (str email,
            {| set_email := Some (str email);
               set_provider := Some provider_name; set_fullName := name;
               set_country := JUndefined; set_profession := JUndefined;
               set_source := JUndefined |},
            {| upsert := true; new := true |})
    else None in
  match r with
  | GET_auth_google_callback profile =>
      oauth (first_email profile) "google" (displayName profile)
  | GET_auth_linkedin_callback profile =>
      oauth (or_else (email_claim profile) (first_email profile)) "linkedin"
            (displayName profile)
  | POST_api_register_email body =>
      if negb (truthy (rb_email body)) ||
         negb (includes (str (rb_email body)) "@") then None
      else Some (str (rb_email body),
                 {| set_email := Some (str (rb_email body));
                    set_provider := None; set_fullName := JUndefined;
                    set_country := JUndefined; set_profession := JUndefined;
                    set_source := JUndefined |},
                 {| upsert := true; new := true |})
  | POST_api_update_details body =>
      if truthy (db_email body) then
        Some (str (db_email body),
              {| set_email := None; set_provider := None;
                 set_fullName := db_fullName body;
                 set_country := db_country body;
                 set_profession := db_profession body;
                 set_source := db_source body |},
              {| upsert := false; new := true |})
      else None
  | GET_health => None
  end.

(** A callback that logged the user of email [e] in: it redirects to the
    details page of [e], binds the session to the record now stored for
    [e], and that record carries the provider and the display name of the
    assertion. *)
Definition logged_in (provider_name e : string) (name : jsval) (db : Db)
    (o : Outcome) : Prop :=
  exists u,
    response o = Redirect ("https://quantumshell.live/details?email="
                           ++ encodeURIComponent e) /\
    login o = Some (_id u) /\
    findOne e (docs (store o)) = Some u /\
    email u = e /\ provider u = provider_name /\
    written name
      (match findOne e (docs db) with Some u0 => fullName u0 | None => None end)
      (fullName u).

(** A callback that ended in the error handler and wrote nothing. *)
Definition failed_with_500 (db : Db) (o : Outcome) : Prop :=
  o = {| response := ErrorPage 500; login := None; store := db |}.

(** ** Sample data *)

Module Sample.

Definition up (t : Z) : Env := {| now := t; store_up := true |}.
Definition down (t : Z) : Env := {| now := t; store_up := false |}.

Definition ann : User :=
  {| _id := 0; email := "a@x.com"; fullName := Some "Ann";
     country := Some "PK"; profession := Some "Physicist";
     source := Some "friend"; provider := "local"; registeredAt := 1000 |}.

Definition db_ann : Db := {| docs := [ann]; next_id := 1 |}.

Definition google_ann : Profile :=
  {| displayName := JStr "Ann G"; email_claim := JUndefined;
     emails := Some [ {| value := JStr "a@x.com" |} ] |}.

Definition linkedin_ann : Profile :=
  {| displayName := JStr "Ann L"; email_claim := JStr "a@x.com";
     emails := None |}.

Definition google_no_email : Profile :=
  {| displayName := JStr "Ann G"; email_claim := JUndefined; emails := None |}.

Definition details_ann : DetailsBody :=
  {| db_email := JStr "a@x.com"; db_fullName := JStr "Bob";
     db_country := JUndefined; db_profession := JNull;
     db_source := JUndefined |}.

Definition health_with_session : Request :=
  {| session_user := Some 0; route := GET_health |}.

Definition health_plain : Request :=
  {| session_user := None; route := GET_health |}.

Definition bea : User :=
  {| _id := 1; email := "b@x.com"; fullName := None; country := None;
     profession := None; source := None; provider := "google";
     registeredAt := 1500 |}.

Definition db_two : Db := {| docs := [ann; bea]; next_id := 2 |}.

Definition linkedin_both : Profile :=
  {| displayName := JStr "Ann L"; email_claim := JStr "a@x.com";
     emails := Some [ {| value := JStr "other@x.com" |} ] |}.

Definition linkedin_fallback : Profile :=
  {| displayName := JNull; email_claim := JStr "";
     emails := Some [ {| value := JStr "b@x.com" |} ] |}.

Definition linkedin_nameless : Profile :=
  {| displayName := JUndefined; email_claim := JStr "a@x.com";
     emails := None |}.

Definition register_ann : Request :=
  {| session_user := Some 0;
     route := POST_api_register_email {| rb_email := JStr "a@x.com" |} |}.

End Sample.

(** An update that does not move a document to another email: it leaves
    [email] alone or sets it to the key of the filter. *)
Definition keeps_key (e : string) (upd : Update) : Prop :=
  set_email upd = None \/ set_email upd = Some e.

(** What one request may do to the store: nothing, or one
    [findOneAndUpdate] keyed by an email the update keeps. *)
Inductive store_step (t : Z) (db : Db) : Db -> Prop :=
| step_skip : store_step t db db
| step_update (e : string) (upd : Update) (opts : Options) :
    keeps_key e upd ->
    store_step t db (snd (findOneAndUpdate t e upd opts db)).

(** * Facts about the store *)

Module StoreFacts.

Lemma eqb_email_refl (e : string) : String.eqb e e = true.
Proof. apply String.eqb_refl. Qed.

Lemma findOne_email (e : string) (l : list User) (u : User) :
  findOne e l = Some u -> email u = e /\ In u l.
Proof.
  induction l as [|x l IH]; simpl; [discriminate|].
  destruct (String.eqb_spec (email x) e) as [Heq|Hne].
  - intros [= <-]. auto.
  - intros H. destruct (IH H). auto.
Qed.

Lemma findOne_None (e : string) (l : list User) :
  findOne e l = None <-> ~ In e (map email l).
Proof.
  induction l as [|x l IH]; simpl.
  - tauto.
  - destruct (String.eqb_spec (email x) e) as [Heq|Hne].
    + split; [discriminate | intros H; exfalso; auto].
    + rewrite IH. tauto.
Qed.

Lemma findOne_app_last (e : string) (l : list User) (x : User) :
  findOne e (l ++ [x]) =
  match findOne e l with
  | Some u => Some u
  | None => if String.eqb (email x) e then Some x else None
  end.
Proof.
  induction l as [|y l IH]; simpl; [reflexivity|].
  destruct (String.eqb (email y) e); auto.
Qed.

Section ModifyFirst.

Variable e : string.
Variable f : User -> User.
Hypothesis f_keeps : forall u, email u = e -> email (f u) = e.

Lemma map_email_modify_first (l : list User) :
  map email (modify_first e f l) = map email l.
Proof.
  induction l as [|x l IH]; simpl; [reflexivity|].
  destruct (String.eqb_spec (email x) e) as [Heq|Hne]; simpl.
  - rewrite f_keeps by assumption. congruence.
  - now rewrite IH.
Qed.

Lemma length_modify_first (l : list User) :
  List.length (modify_first e f l) = List.length l.
Proof.
  induction l as [|x l IH]; simpl; [reflexivity|].
  destruct (String.eqb (email x) e); simpl; congruence.
Qed.

Lemma findOne_modify_first (e0 : string) (l : list User) :
  findOne e0 (modify_first e f l) =
  match findOne e0 l with
  | Some u => Some (if String.eqb e0 e then f u else u)
  | None => None
  end.
Proof.
  induction l as [|x l IH]; simpl; [reflexivity|].
  destruct (String.eqb_spec (email x) e) as [Heq|Hne]; simpl.
  - rewrite f_keeps by assumption. rewrite Heq.
    destruct (String.eqb_spec e e0) as [<-|Hne0].
    + now rewrite eqb_email_refl.
    + destruct (String.eqb_spec e0 e); [congruence|].
      now destruct (findOne e0 l).
  - destruct (String.eqb_spec (email x) e0) as [<-|Hne0]; [|exact IH].
    destruct (String.eqb_spec (email x) e); [contradiction|reflexivity].
Qed.

End ModifyFirst.

Lemma modify_first_id (e : string) (f : User -> User) (l : list User) :
  (forall u, email u = e -> f u = u) -> modify_first e f l = l.
Proof.
  intros Hf. induction l as [|x l IH]; simpl; [reflexivity|].
  destruct (String.eqb_spec (email x) e); [now rewrite Hf | now rewrite IH].
Qed.

Lemma email_apply_update (e : string) (upd : Update) (u : User) :
  keeps_key e upd -> email u = e -> email (apply_update upd u) = e.
Proof. intros [H|H] Hu; simpl; now rewrite H. Qed.

Lemma email_new_doc (t : Z) (id : nat) (e : string) (upd : Update) :
  keeps_key e upd -> email (new_doc t id e upd) = e.
Proof. intros H. now apply email_apply_update. Qed.

(** The email column after a [findOneAndUpdate]: unchanged, or one new
    entry for a key that was not there. *)
Lemma emails_findOneAndUpdate (t : Z) (e : string) (upd : Update)
    (opts : Options) (db : Db) :
  keeps_key e upd ->
  let l' := map email (docs (snd (findOneAndUpdate t e upd opts db))) in
  l' = map email (docs db) \/
  (~ In e (map email (docs db)) /\ l' = (map email (docs db) ++ [e])%list).
Proof.
  intros Hk. unfold findOneAndUpdate.
  destruct (findOne e (docs db)) as [u|] eqn:Hf; cbn [snd docs].
  - left. apply map_email_modify_first. intros x. now apply email_apply_update.
  - destruct (upsert opts); cbn [snd docs]; [right | now left].
    split; [now apply findOne_None|].
    rewrite map_app. cbn [map]. now rewrite email_new_doc.
Qed.

(** Looking any key up after a [findOneAndUpdate]. *)
Lemma findOne_findOneAndUpdate (t : Z) (e : string) (upd : Update)
    (opts : Options) (db : Db) (e0 : string) :
  keeps_key e upd ->
  findOne e0 (docs (snd (findOneAndUpdate t e upd opts db))) =
  match findOne e0 (docs db) with
  | Some u => Some (if String.eqb e0 e then apply_update upd u else u)
  | None =>
      if upsert opts && String.eqb e0 e
      then Some (new_doc t (next_id db) e upd) else None
  end.
Proof.
  intros Hk. unfold findOneAndUpdate.
  destruct (findOne e (docs db)) as [u|] eqn:Hf; cbn [snd docs].
  - rewrite findOne_modify_first
      by (intros x; now apply email_apply_update).
    destruct (findOne e0 (docs db)) eqn:H0; [reflexivity|].
    destruct (String.eqb_spec e0 e) as [->|]; [congruence|].
    now rewrite andb_false_r.
  - destruct (upsert opts); cbn [snd docs andb].
    + rewrite findOne_app_last, email_new_doc by assumption.
      destruct (findOne e0 (docs db)) eqn:H0.
      * destruct (String.eqb_spec e0 e) as [->|]; [congruence|reflexivity].
      * rewrite String.eqb_sym. reflexivity.
    + destruct (findOne e0 (docs db)) eqn:H0; [|reflexivity].
      destruct (String.eqb_spec e0 e) as [->|]; [congruence|reflexivity].
Qed.

Lemma unique_findOneAndUpdate (t : Z) (e : string) (upd : Update)
    (opts : Options) (db : Db) :
  keeps_key e upd -> unique_emails db ->
  unique_emails (snd (findOneAndUpdate t e upd opts db)).
Proof.
  intros Hk Hu. unfold unique_emails in *.
  destruct (emails_findOneAndUpdate t e upd opts db Hk) as [->|[Hn ->]];
    [assumption|].
  apply NoDup_app; [assumption| repeat constructor; intros [] | ].
  intros x Hx [<-|[]]. contradiction.
Qed.

(** With unique emails, a key that is found occurs once. *)
Lemma count_email_unique (e : string) (db : Db) (u : User) :
  unique_emails db -> findOne e (docs db) = Some u -> count_email e db = 1.
Proof.
  unfold unique_emails, count_email. destruct db as [l n]; simpl.
  induction l as [|x l IH]; simpl; [discriminate|].
  intros Hnd. inversion Hnd as [|? ? Hnotin Hnd']; subst.
  destruct (String.eqb_spec (email x) e) as [Heq|Hne]; simpl.
  - intros _. f_equal.
    assert (Hall : forall y, In y l -> String.eqb (email y) e = false).
    { intros y Hy. apply String.eqb_neq. intros Hye. apply Hnotin.
      rewrite Heq, <- Hye. now apply in_map. }
    clear - Hall. induction l as [|y l IH]; simpl; [reflexivity|].
    rewrite Hall by (now left). apply IH. intros z Hz. apply Hall. now right.
  - intros Hf. now apply IH.
Qed.

End StoreFacts.

(** * Facts about the handlers *)

Module HandlerFacts.

Import StoreFacts.

Ltac unfold_handler :=
  unfold google_callback, linkedin_callback, oauth_callback, authenticate,
    google_verify, linkedin_verify, register_email, update_details,
    deserializeUser, try_catch, bind, ret, throw,
    User_findOneAndUpdate, User_findById.

Ltac keeps := (left; reflexivity) || (right; reflexivity).

(** The verify callbacks touch the store through one keyed upsert. *)
Lemma verify_store_step (env : Env) (provider_name err : string)
    (email : jsval) (name : jsval) (db : Db) :
  let upd := {| set_email := Some (str email);
                set_provider := Some provider_name; set_fullName := name;
                set_country := JUndefined; set_profession := JUndefined;
                set_source := JUndefined |} in
  store_step (now env) db
    (snd (try_catch
            (if negb (truthy email) then ret (DoneError err)
             else user <- User_findOneAndUpdate env (str email) upd
                            {| upsert := true; new := true |} ;;
                  ret (DoneUser user))
            DoneError db)).
Proof.
  unfold_handler.
  destruct (truthy email); cbn [negb snd]; [|constructor].
  destruct (store_up env); cbn [snd]; [|constructor].
  destruct (findOneAndUpdate _ _ _ _ db) as [r db'] eqn:Hr; cbn [snd].
  change db' with (snd (r, db')). rewrite <- Hr.
  apply step_update. keeps.
Qed.

Lemma oauth_callback_store (verify : Profile -> Db -> Verified * Db)
    (profile : Profile) (db : Db) :
  store (oauth_callback verify profile db) = snd (verify profile db).
Proof.
  unfold oauth_callback, authenticate.
  destruct (verify profile db) as [[err|[user|]] db']; reflexivity.
Qed.

Lemma register_email_store_step (env : Env) (body : RegisterBody) (db : Db) :
  store_step (now env) db (snd (register_email env body db)).
Proof.
  unfold_handler.
  destruct (negb (truthy (rb_email body)) ||
            negb (includes (str (rb_email body)) "@")); cbn [snd]; [constructor|].
  destruct (store_up env); cbn [snd]; [|constructor].
  destruct (findOneAndUpdate _ _ _ _ db) as [r db'] eqn:Hr.
  assert (Hdb : db' = snd (findOneAndUpdate (now env) (str (rb_email body))
            {| set_email := Some (str (rb_email body)); set_provider := None;
               set_fullName := JUndefined; set_country := JUndefined;
               set_profession := JUndefined; set_source := JUndefined |}
            {| upsert := true; new := true |} db)) by now rewrite Hr.
  destruct r as [u|]; cbn [prop snd ret throw]; rewrite Hdb;
    apply step_update; keeps.
Qed.

Lemma update_details_store_step (env : Env) (body : DetailsBody) (db : Db) :
  store_step (now env) db (snd (update_details env body db)).
Proof.
  unfold_handler.
  destruct (truthy (db_email body)); cbn [negb snd]; [|constructor].
  destruct (store_up env); cbn [snd]; [|constructor].
  destruct (findOneAndUpdate _ _ _ _ db) as [r db'] eqn:Hr; cbn [snd].
  change db' with (snd (r, db')). rewrite <- Hr.
  apply step_update. keeps.
Qed.

Lemma dispatch_store_step (env : Env) (r : Route) (db : Db) :
  store_step (now env) db (store (dispatch env r db)).
Proof.
  destruct r as [profile|profile|body|body|]; cbn [dispatch].
  - unfold google_callback. rewrite oauth_callback_store.
    apply verify_store_step.
  - unfold linkedin_callback. rewrite oauth_callback_store.
    apply verify_store_step.
  - pose proof (register_email_store_step env body db) as H.
    destruct (register_email env body db); exact H.
  - pose proof (update_details_store_step env body db) as H.
    destruct (update_details env body db); exact H.
  - constructor.
Qed.

(** Loading the session's user never writes. *)
Lemma deserializeUser_store (env : Env) (id : nat) (db : Db) :
  snd (deserializeUser env id db) = db.
Proof. unfold_handler. now destruct (store_up env). Qed.

Lemma app_store_step (env : Env) (req : Request) (db : Db) :
  store_step (now env) db (store (app env req db)).
Proof.
  unfold app. destruct (session_user req) as [id|];
    [|apply dispatch_store_step].
  pose proof (deserializeUser_store env id db) as Hd.
  destruct (deserializeUser env id db) as [[err|user] db']; cbn [snd] in Hd;
    subst db'; [constructor | apply dispatch_store_step].
Qed.

Lemma step_preserves_unique (t : Z) (db db' : Db) :
  store_step t db db' -> unique_emails db -> unique_emails db'.
Proof.
  intros [|e upd opts Hk] Hu; [assumption|].
  now apply unique_findOneAndUpdate.
Qed.

Lemma run_preserves_unique (reqs : list (Env * Request)) (db : Db) :
  unique_emails db -> unique_emails (run reqs db).
Proof.
  unfold run. revert db.
  induction reqs as [|[env req] reqs IH]; intros db Hu; cbn [fold_left];
    [assumption|].
  apply IH. cbn [fst snd].
  exact (step_preserves_unique _ _ _ (app_store_step env req db) Hu).
Qed.

(** A step keeps every document's [_id] and [registeredAt], and a
    document that appears was stamped with the step's clock. *)
Lemma step_registeredAt (t : Z) (db db' : Db) (e : string) :
  store_step t db db' ->
  match findOne e (docs db) with
  | Some u =>
      exists u', findOne e (docs db') = Some u' /\
                 registeredAt u' = registeredAt u /\ _id u' = _id u
  | None =>
      forall u', findOne e (docs db') = Some u' -> registeredAt u' = t
  end.
Proof.
  intros [|k upd opts Hk].
  - destruct (findOne e (docs db)) as [u|] eqn:Hf; [eauto | congruence].
  - rewrite findOne_findOneAndUpdate by assumption.
    destruct (findOne e (docs db)) as [u|].
    + eexists; split; [reflexivity|].
      now destruct (String.eqb e k).
    + destruct (upsert opts && String.eqb e k); [|discriminate].
      now intros u' [= <-].
Qed.

(** [includes] with a one-character needle is membership. *)
Lemma includes_char (c : ascii) (s : string) :
  includes s (String c EmptyString) = true <-> has_char c s.
Proof.
  unfold has_char. induction s as [|a s IH]; cbn [includes String.prefix].
  - simpl. split; [discriminate | tauto].
  - cbn [list_ascii_of_string In].
    destruct (ascii_dec c a) as [->|Hne].
    + destruct s; simpl; tauto.
    + cbn [orb]. rewrite IH. split; [tauto | intros [H|H]; congruence].
Qed.

Lemma truthy_nonempty (e : string) : truthy (JStr e) = true <-> e <> "".
Proof. destruct e; simpl; split; congruence. Qed.

Lemma has_char_nonempty (c : ascii) (e : string) : has_char c e -> e <> "".
Proof. unfold has_char. now destruct e. Qed.

(** [{ email }] written over a document that has this email is no change. *)
Lemma apply_email_only (e : string) (u : User) :
  email u = e ->
  apply_update
    {| set_email := Some e; set_provider := None; set_fullName := JUndefined;
       set_country := JUndefined; set_profession := JUndefined;
       set_source := JUndefined |} u = u.
Proof. intros <-. now destruct u. Qed.

Lemma findOneAndUpdate_found (t : Z) (e : string) (upd : Update)
    (opts : Options) (db : Db) (u : User) :
  findOne e (docs db) = Some u ->
  findOneAndUpdate t e upd opts db =
  (Some (if new opts then apply_update upd u else u),
   {| docs := modify_first e (apply_update upd) (docs db);
      next_id := next_id db |}).
Proof. intros H. unfold findOneAndUpdate. now rewrite H. Qed.

Lemma findOneAndUpdate_missing (t : Z) (e : string) (upd : Update)
    (opts : Options) (db : Db) :
  findOne e (docs db) = None ->
  findOneAndUpdate t e upd opts db =
  if upsert opts then
    (if new opts then Some (new_doc t (next_id db) e upd) else None,
     {| docs := (docs db ++ [new_doc t (next_id db) e upd])%list;
        next_id := S (next_id db) |})
  else (None, db).
Proof. intros H. unfold findOneAndUpdate. now rewrite H. Qed.

(** register-email, case by case. *)
Lemma register_email_rejects (env : Env) (body : RegisterBody) (db : Db) :
  truthy (rb_email body) = false \/
  includes (str (rb_email body)) "@" = false ->
  register_email env body db = (Json 400 (ErrorBody "Valid email required"), db).
Proof.
  intros H. unfold_handler.
  assert (Hc : negb (truthy (rb_email body)) ||
               negb (includes (str (rb_email body)) "@") = true).
  { destruct H as [-> | ->]; [reflexivity | apply orb_true_r]. }
  now rewrite Hc.
Qed.

Lemma register_email_store_down (env : Env) (e : string) (db : Db) :
  store_up env = false -> includes e "@" = true ->
  register_email env {| rb_email := JStr e |} db =
  (Json 500 (ErrorBody "Server error"), db).
Proof.
  intros Hup Hat. unfold_handler. cbn [rb_email str].
  assert (Ht : truthy (JStr e) = true).
  { apply truthy_nonempty. apply (has_char_nonempty "@"). now apply includes_char. }
  now rewrite Ht, Hat, Hup.
Qed.

Lemma register_email_existing (env : Env) (e : string) (u : User) (db : Db) :
  store_up env = true -> includes e "@" = true ->
  findOne e (docs db) = Some u ->
  register_email env {| rb_email := JStr e |} db =
  (Json 200 (SeededBody "✅ Logic Seeded" (_id u)), db).
Proof.
  intros Hup Hat Hf. unfold_handler. cbn [rb_email str].
  assert (Ht : truthy (JStr e) = true).
  { apply truthy_nonempty. apply (has_char_nonempty "@"). now apply includes_char. }
  rewrite Ht, Hat, Hup. cbn [negb orb].
  rewrite (findOneAndUpdate_found _ _ _ _ _ _ Hf). cbn [new prop ret].
  destruct (findOne_email _ _ _ Hf) as [He _].
  rewrite apply_email_only by assumption.
  rewrite modify_first_id by (intros x Hx; now apply apply_email_only).
  now destruct db.
Qed.

Lemma register_email_fresh (env : Env) (e : string) (db : Db) :
  store_up env = true -> includes e "@" = true ->
  findOne e (docs db) = None ->
  let u := {| _id := next_id db; email := e; fullName := None;
              country := None; profession := None; source := None;
              provider := "local"; registeredAt := now env |} in
  register_email env {| rb_email := JStr e |} db =
  (Json 200 (SeededBody "✅ Logic Seeded" (next_id db)),
   {| docs := (docs db ++ [u])%list; next_id := S (next_id db) |}).
Proof.
  intros Hup Hat Hf. unfold_handler. cbn [rb_email str].
  assert (Ht : truthy (JStr e) = true).
  { apply truthy_nonempty. apply (has_char_nonempty "@"). now apply includes_char. }
  rewrite Ht, Hat, Hup. cbn [negb orb].
  rewrite (findOneAndUpdate_missing _ _ _ _ _ Hf). reflexivity.
Qed.

(** update-details, case by case. *)
Lemma update_details_found (env : Env) (body : DetailsBody) (db : Db) (u : User) :
  store_up env = true -> truthy (db_email body) = true ->
  findOne (str (db_email body)) (docs db) = Some u ->
  let upd := {| set_email := None; set_provider := None;
                set_fullName := db_fullName body;
                set_country := db_country body;
                set_profession := db_profession body;
                set_source := db_source body |} in
  update_details env body db =
  (Json 200 (SavedBody "Details saved. You're now part of QPS waitlist!"
               (Some (apply_update upd u))),
   {| docs := modify_first (str (db_email body)) (apply_update upd) (docs db);
      next_id := next_id db |}).
Proof.
  intros Hup Ht Hf. unfold_handler. rewrite Ht, Hup. cbn [negb].
  now rewrite (findOneAndUpdate_found _ _ _ _ _ _ Hf).
Qed.

Lemma update_details_missing (env : Env) (body : DetailsBody) (db : Db) :
  store_up env = true -> truthy (db_email body) = true ->
  findOne (str (db_email body)) (docs db) = None ->
  update_details env body db =
  (Json 200 (SavedBody "Details saved. You're now part of QPS waitlist!" None),
   db).
Proof.
  intros Hup Ht Hf. unfold_handler. rewrite Ht, Hup. cbn [negb].
  now rewrite (findOneAndUpdate_missing _ _ _ _ _ Hf).
Qed.

(** The store after a callback whose assertion carries an email. *)
Lemma google_callback_store (env : Env) (profile : Profile) (db : Db) :
  store_up env = true -> truthy (first_email profile) = true ->
  store (google_callback env profile db) =
  snd (findOneAndUpdate (now env) (str (first_email profile))
         {| set_email := Some (str (first_email profile));
            set_provider := Some "google";
            set_fullName := displayName profile;
            set_country := JUndefined; set_profession := JUndefined;
            set_source := JUndefined |}
         {| upsert := true; new := true |} db).
Proof.
  intros Hup Ht. unfold google_callback. rewrite oauth_callback_store.
  unfold_handler. rewrite Ht, Hup. cbn [negb].
  now destruct (findOneAndUpdate _ _ _ _ db).
Qed.

Lemma linkedin_callback_store (env : Env) (profile : Profile) (db : Db) :
  let email := or_else (email_claim profile) (first_email profile) in
  store_up env = true -> truthy email = true ->
  store (linkedin_callback env profile db) =
  snd (findOneAndUpdate (now env) (str email)
         {| set_email := Some (str email);
            set_provider := Some "linkedin";
            set_fullName := displayName profile;
            set_country := JUndefined; set_profession := JUndefined;
            set_source := JUndefined |}
         {| upsert := true; new := true |} db).
Proof.
  intros email Hup Ht. unfold linkedin_callback. rewrite oauth_callback_store.
  unfold_handler. fold email. rewrite Ht, Hup. cbn [negb].
  now destruct (findOneAndUpdate _ _ _ _ db).
Qed.

(** A callback whose verify callback finds no email. *)
Lemma oauth_callback_error (verify : Profile -> Db -> Verified * Db)
    (profile : Profile) (db : Db) (err : string) :
  verify profile db = (DoneError err, db) ->
  oauth_callback verify profile db =
  {| response := ErrorPage 500; login := None; store := db |}.
Proof. intros H. unfold oauth_callback, authenticate. now rewrite H. Qed.

Lemma run_registeredAt (reqs : list (Env * Request)) (db : Db)
    (e : string) (u : User) :
  findOne e (docs db) = Some u ->
  exists u', findOne e (docs (run reqs db)) = Some u' /\
             registeredAt u' = registeredAt u /\ _id u' = _id u.
Proof.
  unfold run. revert db u.
  induction reqs as [|[env req] reqs IH]; intros db u Hf; cbn [fold_left].
  - eauto.
  - cbn [fst snd].
    pose proof (step_registeredAt _ _ _ e (app_store_step env req db)) as Hs.
    rewrite Hf in Hs. destruct Hs as (u1 & Hf1 & Hr1 & Hi1).
    destruct (IH _ _ Hf1) as (u' & Hf' & Hr' & Hi').
    exists u'. repeat split; congruence.
Qed.

Lemma unique_count_le (db : Db) (e : string) :
  unique_emails db -> count_email e db <= 1.
Proof.
  intros Hu. destruct (findOne e (docs db)) as [u|] eqn:Hf.
  - now rewrite (count_email_unique e db u).
  - unfold count_email. apply findOne_None in Hf.
    assert (H : filter (fun u => String.eqb (email u) e) (docs db) = []).
    { induction (docs db) as [|x l IH]; cbn [filter]; [reflexivity|].
      destruct (String.eqb_spec (email x) e) as [Heq|Hne].
      - exfalso. apply Hf. left. exact Heq.
      - apply IH. intros Hin. apply Hf. now right. }
    rewrite H. simpl. lia.
Qed.

End HandlerFacts.

(** * The properties of the specification *)

Import StoreFacts HandlerFacts Sample.

(** ** Signup API *)

(** C1, as the specification states it, fails: update-details on an email
    that is not in the store creates no record; it answers 200 with
    [data: null] and leaves the store empty. *)
Lemma update_details_unknown_email_creates_nothing :
  let body := {| db_email := JStr "a@x.com"; db_fullName := JStr "Ann";
                 db_country := JStr "PK"; db_profession := JNull;
                 db_source := JUndefined |} in
  findOne "a@x.com" (docs empty_db) = None /\
  update_details (up 1000) body empty_db =
    (Json 200 (SavedBody "Details saved. You're now part of QPS waitlist!" None),
     empty_db) /\
  ~ (exists u, findOne "a@x.com"
                 (docs (snd (update_details (up 1000) body empty_db))) = Some u).
Proof.
  cbv zeta. repeat split. intros [u Hu]. vm_compute in Hu. discriminate.
Qed.

(** C1 (amended): of the two Signup API operations only register-email
    upserts.  For an email [e] that is not in the store, update-details
    (find-and-update without [upsert]) creates nothing, leaves the store
    as it is and answers 200 with [data: null], whereas register-email
    (for [e] containing '@') appends the record keyed by [e] and answers
    200 with its fresh id. *)
Theorem only_register_email_upserts (env : Env) (e : string)
    (fn c p s : jsval) (db : Db) :
  store_up env = true -> e <> "" -> findOne e (docs db) = None ->
  update_details env
    {| db_email := JStr e; db_fullName := fn; db_country := c;
       db_profession := p; db_source := s |} db =
    (Json 200 (SavedBody "Details saved. You're now part of QPS waitlist!" None),
     db) /\
  (has_char "@" e ->
   exists u,
     register_email env {| rb_email := JStr e |} db =
       (Json 200 (SeededBody "✅ Logic Seeded" (_id u)),
        {| docs := (docs db ++ [u])%list; next_id := S (next_id db) |}) /\
     email u = e /\ _id u = next_id db /\
     provider u = "local" /\ registeredAt u = now env /\
     findOne e (docs db ++ [u]) = Some u).
Proof.
  intros Hup He Hf. split.
  - apply update_details_missing; [assumption | now apply truthy_nonempty | exact Hf].
  - intros Hat. apply includes_char in Hat.
    exists {| _id := next_id db; email := e; fullName := None;
              country := None; profession := None; source := None;
              provider := "local"; registeredAt := now env |}.
    split; [now apply register_email_fresh|].
    cbn [email _id provider registeredAt]. repeat split.
    rewrite findOne_app_last, Hf. cbn [email]. now rewrite String.eqb_refl.
Qed.

Lemma only_register_email_upserts_witness :
  update_details (up 1000)
    {| db_email := JStr "b@x.com"; db_fullName := JStr "Bea";
       db_country := JUndefined; db_profession := JUndefined;
       db_source := JUndefined |} db_ann =
    (Json 200 (SavedBody "Details saved. You're now part of QPS waitlist!" None),
     db_ann) /\
  exists u,
    register_email (up 1000) {| rb_email := JStr "b@x.com" |} db_ann =
      (Json 200 (SeededBody "✅ Logic Seeded" (_id u)),
       {| docs := (docs db_ann ++ [u])%list; next_id := S (next_id db_ann) |}) /\
    email u = "b@x.com" /\ _id u = next_id db_ann /\
    provider u = "local" /\ registeredAt u = 1000%Z /\
    findOne "b@x.com" (docs db_ann ++ [u]) = Some u.
Proof.
  destruct (only_register_email_upserts (up 1000) "b@x.com"
              (JStr "Bea") JUndefined JUndefined JUndefined db_ann)
    as [Hupdate Hregister].
  - reflexivity.
  - discriminate.
  - reflexivity.
  - split; [exact Hupdate|]. apply Hregister.
    right. left. reflexivity.
Defined.

(** C3: register-email is idempotent.  For an email [e] (containing '@')
    that is already in the store, and a store that answers, calling
    register-email again returns 200 with the [_id] of the existing
    record; the number of records, and the number of records for [e], do
    not change -- the store is left exactly as it was. *)
Theorem register_email_idempotent (env : Env) (e : string) (u : User) (db : Db) :
  store_up env = true -> has_char "@" e -> findOne e (docs db) = Some u ->
  let r := register_email env {| rb_email := JStr e |} db in
  fst r = Json 200 (SeededBody "✅ Logic Seeded" (_id u)) /\
  List.length (docs (snd r)) = List.length (docs db) /\
  count_email e (snd r) = count_email e db /\
  snd r = db.
Proof.
  intros Hup Hat Hf r. subst r. apply includes_char in Hat.
  rewrite (register_email_existing env e u db Hup Hat Hf). cbn [fst snd].
  repeat split.
Qed.

Lemma register_email_idempotent_witness :
  fst (register_email (up 2000) {| rb_email := JStr "a@x.com" |} db_ann) =
    Json 200 (SeededBody "✅ Logic Seeded" 0) /\
  snd (register_email (up 2000) {| rb_email := JStr "a@x.com" |} db_ann) = db_ann.
Proof.
  assert (H := register_email_idempotent (up 2000) "a@x.com" ann db_ann).
  cbv zeta in H. split; apply H; try reflexivity; right; left; reflexivity.
Defined.

(** C5: a register-email body whose email is absent, or is a string in
    which '@' does not occur, is answered with 400 and the store is left
    unchanged -- whatever the store holds and whether or not it answers. *)
Theorem register_email_rejects_invalid (env : Env) (body : RegisterBody) (db : Db) :
  absent (rb_email body) \/
  (exists s, rb_email body = JStr s /\ ~ has_char "@" s) ->
  register_email env body db =
    (Json 400 (ErrorBody "Valid email required"), db) /\
  status_of (fst (register_email env body db)) = 400 /\
  snd (register_email env body db) = db.
Proof.
  intros H.
  assert (Hr : register_email env body db =
               (Json 400 (ErrorBody "Valid email required"), db)).
  { apply register_email_rejects.
    destruct H as [[-> | ->] | (s & -> & Hs)]; [now left | now left |].
    right. cbn [str]. destruct (includes s "@") eqn:Hi; [|reflexivity].
    apply includes_char in Hi. contradiction. }
  rewrite Hr. repeat split.
Qed.

Lemma register_email_rejects_invalid_witness :
  register_email (up 1000) {| rb_email := JStr "ann.x.com" |} db_ann =
    (Json 400 (ErrorBody "Valid email required"), db_ann).
Proof.
  apply (register_email_rejects_invalid (up 1000)
           {| rb_email := JStr "ann.x.com" |} db_ann).
  right. exists "ann.x.com". split; [reflexivity|].
  unfold has_char. simpl. intuition discriminate.
Defined.

(** C10: a successful register-email for an email [e] that is already in
    the store leaves every other field of the record of [e] as it was:
    fullName, country, profession, source, provider, registeredAt and
    id. *)
Theorem register_email_keeps_fields (env : Env) (e : string) (u : User) (db : Db) :
  findOne e (docs db) = Some u ->
  status_of (fst (register_email env {| rb_email := JStr e |} db)) = 200 ->
  exists u',
    findOne e (docs (snd (register_email env {| rb_email := JStr e |} db)))
      = Some u' /\
    fullName u' = fullName u /\ country u' = country u /\
    profession u' = profession u /\ source u' = source u /\
    provider u' = provider u /\ registeredAt u' = registeredAt u /\
    _id u' = _id u.
Proof.
  intros Hf Hok.
  destruct (includes e "@") eqn:Hat.
  - destruct (store_up env) eqn:Hup.
    + rewrite (register_email_existing env e u db Hup Hat Hf). cbn [snd].
      exists u. repeat split. exact Hf.
    + rewrite (register_email_store_down env e db Hup Hat) in Hok.
      discriminate.
  - rewrite (register_email_rejects env {| rb_email := JStr e |} db) in Hok
      by (right; exact Hat).
    discriminate.
Qed.

Lemma register_email_keeps_fields_witness :
  exists u',
    findOne "a@x.com"
      (docs (snd (register_email (up 2000) {| rb_email := JStr "a@x.com" |} db_ann)))
      = Some u' /\
    fullName u' = Some "Ann" /\ country u' = Some "PK" /\
    profession u' = Some "Physicist" /\ source u' = Some "friend" /\
    provider u' = "local" /\ registeredAt u' = 1000%Z /\ _id u' = 0.
Proof.
  apply (register_email_keeps_fields (up 2000) "a@x.com" ann db_ann);
    reflexivity.
Defined.

(** C8, as the specification states it, fails: a field the request omits
    is not overwritten.  Updating Ann's record with a body that carries
    only [fullName] (and [profession: null]) keeps the stored country and
    source. *)
Lemma update_details_keeps_omitted_fields :
  exists u',
    update_details (up 2000) details_ann db_ann =
      (Json 200 (SavedBody "Details saved. You're now part of QPS waitlist!"
                   (Some u')),
       {| docs := [u']; next_id := 1 |}) /\
    db_country details_ann = JUndefined /\ country ann = Some "PK" /\
    country u' = Some "PK" /\ country u' <> None /\
    source u' = Some "friend" /\
    fullName u' = Some "Bob" /\ profession u' = None.
Proof.
  eexists. split; [vm_compute; reflexivity|].
  cbn. repeat split. discriminate.
Qed.

(** C8 (amended): a valid update-details call on an existing email [e]
    returns 200 with the record as it is stored after the call.  Each of
    fullName, country, profession and source holds the string the request
    supplied for it, is absent when the request supplied [null], and
    keeps its stored value when the request omitted it; email, id,
    provider and registeredAt are unchanged. *)
Theorem update_details_writes_supplied_fields (env : Env) (body : DetailsBody)
    (e : string) (u : User) (db : Db) :
  store_up env = true -> db_email body = JStr e -> e <> "" ->
  findOne e (docs db) = Some u ->
  exists u',
    fst (update_details env body db) =
      Json 200 (SavedBody "Details saved. You're now part of QPS waitlist!"
                  (Some u')) /\
    findOne e (docs (snd (update_details env body db))) = Some u' /\
    written (db_fullName body) (fullName u) (fullName u') /\
    written (db_country body) (country u) (country u') /\
    written (db_profession body) (profession u) (profession u') /\
    written (db_source body) (source u) (source u') /\
    email u' = e /\ _id u' = _id u /\ provider u' = provider u /\
    registeredAt u' = registeredAt u.
Proof.
  intros Hup He Hne Hf.
  assert (Ht : truthy (db_email body) = true)
    by (rewrite He; now apply truthy_nonempty).
  assert (Hf' : findOne (str (db_email body)) (docs db) = Some u)
    by now rewrite He.
  rewrite (update_details_found env body db u Hup Ht Hf'). cbn [fst snd docs].
  rewrite He. cbn [str].
  eexists. split; [reflexivity|]. split.
  { rewrite findOne_modify_first, Hf, String.eqb_refl; [reflexivity|].
    intros x Hx. exact Hx. }
  destruct (findOne_email _ _ _ Hf) as [Hue _].
  cbn [apply_update set_fullName set_country set_profession set_source
       set_email set_provider fullName country profession source email _id
       provider registeredAt].
  repeat split; try assumption.
  all: match goal with |- written ?v _ _ => destruct v; reflexivity end.
Qed.

Lemma update_details_writes_supplied_fields_witness :
  exists u',
    fst (update_details (up 2000) details_ann db_ann) =
      Json 200 (SavedBody "Details saved. You're now part of QPS waitlist!"
                  (Some u')) /\
    findOne "a@x.com" (docs (snd (update_details (up 2000) details_ann db_ann)))
      = Some u' /\
    written (JStr "Bob") (Some "Ann") (fullName u') /\
    written JUndefined (Some "PK") (country u') /\
    written JNull (Some "Physicist") (profession u') /\
    written JUndefined (Some "friend") (source u') /\
    email u' = "a@x.com" /\ _id u' = 0 /\ provider u' = "local" /\
    registeredAt u' = 1000%Z.
Proof.
  apply (update_details_writes_supplied_fields (up 2000) details_ann
           "a@x.com" ann db_ann).
  - reflexivity.
  - reflexivity.
  - discriminate.
  - reflexivity.
Defined.

(** ** Identity providers *)

(** C2: an identity assertion without an email claim leaves the store
    unchanged and logs nobody in, but the callback does not redirect to
    the error page: the verify callback reports the missing email through
    [done(err)], which Passport passes to [next(err)], and the request
    ends in Express's error handler with status 500. *)
Theorem missing_email_ends_in_error_handler (env : Env) (profile : Profile)
    (db : Db) :
  (absent (first_email profile) ->
   google_callback env profile db =
     {| response := ErrorPage 500; login := None; store := db |}) /\
  (absent (email_claim profile) -> absent (first_email profile) ->
   linkedin_callback env profile db =
     {| response := ErrorPage 500; login := None; store := db |}).
Proof.
  split.
  - intros Ha. unfold google_callback.
    apply oauth_callback_error with (err := "No email in Google profile").
    unfold_handler. now destruct Ha as [-> | ->].
  - intros Hc Ha. unfold linkedin_callback.
    apply oauth_callback_error with (err := "No email in LinkedIn profile").
    unfold_handler. unfold or_else.
    now destruct Hc as [-> | ->]; destruct Ha as [-> | ->].
Qed.

Lemma missing_email_ends_in_error_handler_witness :
  google_callback (up 1000) google_no_email db_ann =
    {| response := ErrorPage 500; login := None; store := db_ann |} /\
  response (google_callback (up 1000) google_no_email db_ann) <> Redirect "/error".
Proof.
  assert (H : google_callback (up 1000) google_no_email db_ann =
              {| response := ErrorPage 500; login := None; store := db_ann |}).
  { apply (proj1 (missing_email_ends_in_error_handler (up 1000)
                    google_no_email db_ann)).
    left. reflexivity. }
  split; [exact H|]. rewrite H. discriminate.
Defined.

(** C4, as the specification states it, fails for a LinkedIn assertion
    that carries no display name: the update then leaves fullName alone,
    and the record keeps the name the Google assertion wrote instead of
    taking the (absent) display name of the LinkedIn assertion. *)
Lemma linkedin_without_name_keeps_google_name :
  let db1 := store (google_callback (up 1000) google_ann empty_db) in
  let db2 := store (linkedin_callback (up 2000) linkedin_nameless db1) in
  displayName google_ann = JStr "Ann G" /\
  displayName linkedin_nameless = JUndefined /\
  count_email "a@x.com" db2 = 1 /\
  exists u, findOne "a@x.com" (docs db2) = Some u /\
            provider u = "linkedin" /\ fullName u = Some "Ann G" /\
            fullName u <> None.
Proof.
  cbv zeta. repeat split. eexists. split; [vm_compute; reflexivity|].
  cbn. repeat split. discriminate.
Qed.

(** C4 (amended): a Google assertion with a non-empty email [e] followed
    by a LinkedIn assertion with the same email is merged by email into
    one record.  After the Google callback there is exactly one record
    for [e], with provider 'google' and the Google display name written.
    After the LinkedIn callback there is still exactly one record for
    [e], and it is that same record: no record was added, its id,
    registeredAt, country, profession and source are those the Google
    step left, its provider is overwritten with 'linkedin', and its
    fullName is the display name of the LinkedIn assertion when the
    assertion carries one (absent for [null]); when the LinkedIn
    assertion carries no display name, fullName keeps the value the
    Google step left. *)
Theorem google_then_linkedin_is_one_record (env1 env2 : Env)
    (google linkedin : Profile) (e : string) (db : Db) :
  store_up env1 = true -> store_up env2 = true -> unique_emails db ->
  e <> "" ->
  first_email google = JStr e ->
  or_else (email_claim linkedin) (first_email linkedin) = JStr e ->
  let db1 := store (google_callback env1 google db) in
  let db2 := store (linkedin_callback env2 linkedin db1) in
  exists g u,
    findOne e (docs db1) = Some g /\ count_email e db1 = 1 /\
    provider g = "google" /\
    written (displayName google)
      (match findOne e (docs db) with Some u0 => fullName u0 | None => None end)
      (fullName g) /\
    findOne e (docs db2) = Some u /\ count_email e db2 = 1 /\
    List.length (docs db2) = List.length (docs db1) /\
    _id u = _id g /\ registeredAt u = registeredAt g /\
    country u = country g /\ profession u = profession g /\
    source u = source g /\
    provider u = "linkedin" /\
    written (displayName linkedin) (fullName g) (fullName u) /\
    (forall name, displayName linkedin = JStr name -> fullName u = Some name).
Proof.
  intros Hup1 Hup2 Hu Hne Hg Hl db1 db2.
  assert (Ht : truthy (JStr e) = true) by now apply truthy_nonempty.
  set (updG := {| set_email := Some e; set_provider := Some "google";
                  set_fullName := displayName google;
                  set_country := JUndefined; set_profession := JUndefined;
                  set_source := JUndefined |}).
  set (updL := {| set_email := Some e; set_provider := Some "linkedin";
                  set_fullName := displayName linkedin;
                  set_country := JUndefined; set_profession := JUndefined;
                  set_source := JUndefined |}).
  assert (E1 : db1 = snd (findOneAndUpdate (now env1) e updG
                            {| upsert := true; new := true |} db)).
  { subst db1. rewrite google_callback_store by (rewrite ?Hg; assumption).
    now rewrite Hg. }
  assert (E2 : db2 = snd (findOneAndUpdate (now env2) e updL
                            {| upsert := true; new := true |} db1)).
  { subst db2. rewrite linkedin_callback_store by (rewrite ?Hl; assumption).
    now rewrite Hl. }
  assert (HkG : keeps_key e updG) by keeps.
  assert (HkL : keeps_key e updL) by keeps.
  assert (Hu1 : unique_emails db1)
    by (rewrite E1; now apply unique_findOneAndUpdate).
  assert (Hu2 : unique_emails db2)
    by (rewrite E2; now apply unique_findOneAndUpdate).
  assert (Hf1 : exists g,
            findOne e (docs db1) = Some g /\ provider g = "google" /\
            written (displayName google)
              (match findOne e (docs db) with
               | Some u0 => fullName u0 | None => None end) (fullName g)).
  { rewrite E1, findOne_findOneAndUpdate, String.eqb_refl by assumption.
    cbn [upsert andb].
    destruct (findOne e (docs db)); eexists; (split; [reflexivity|]);
      (split; [reflexivity|]); cbn [new_doc apply_update updG fullName set_fullName];
      destruct (displayName google); reflexivity. }
  destruct Hf1 as (g & Hf1 & Hpg & Hng).
  exists g, (apply_update updL g).
  assert (Hf2 : findOne e (docs db2) = Some (apply_update updL g)).
  { rewrite E2, findOne_findOneAndUpdate, Hf1, String.eqb_refl by assumption.
    reflexivity. }
  split; [exact Hf1|]. split; [exact (count_email_unique e db1 g Hu1 Hf1)|].
  split; [exact Hpg|]. split; [exact Hng|].
  split; [exact Hf2|].
  split; [exact (count_email_unique e db2 _ Hu2 Hf2)|].
  split.
  { rewrite E2, (findOneAndUpdate_found _ _ _ _ _ _ Hf1). cbn [snd docs].
    apply length_modify_first. }
  cbn [apply_update updL _id registeredAt country profession source provider
       fullName set_fullName set_country set_profession set_source
       set_provider assign].
  repeat split.
  - destruct (displayName linkedin); reflexivity.
  - intros name ->. reflexivity.
Qed.

Lemma google_then_linkedin_is_one_record_witness :
  let db1 := store (google_callback (up 1000) google_ann db_two) in
  let db2 := store (linkedin_callback (up 2000) linkedin_ann db1) in
  exists g u,
    findOne "a@x.com" (docs db1) = Some g /\ count_email "a@x.com" db1 = 1 /\
    provider g = "google" /\
    written (JStr "Ann G") (Some "Ann") (fullName g) /\
    findOne "a@x.com" (docs db2) = Some u /\ count_email "a@x.com" db2 = 1 /\
    List.length (docs db2) = List.length (docs db1) /\
    _id u = _id g /\ registeredAt u = registeredAt g /\
    country u = country g /\ profession u = profession g /\
    source u = source g /\
    provider u = "linkedin" /\
    written (JStr "Ann L") (fullName g) (fullName u) /\
    (forall name, JStr "Ann L" = JStr name -> fullName u = Some name).
Proof.
  apply (google_then_linkedin_is_one_record (up 1000) (up 2000)
           google_ann linkedin_ann "a@x.com" db_two).
  - reflexivity.
  - reflexivity.
  - repeat constructor; simpl; intuition discriminate.
  - discriminate.
  - reflexivity.
  - reflexivity.
Defined.

(** ** The record store under any sequence of requests *)

(** C6: registeredAt is set once, when the record is created, and never
    changes afterwards.  A record that a request creates for [e] carries
    that request's time; and once a record for [e] exists, after any
    further sequence of requests (register-email, update-details,
    provider callbacks, in any order and for any email) the record for
    [e] still has the same registeredAt. *)
Theorem registeredAt_set_once (env : Env) (req : Request) (db : Db) (e : string) :
  (findOne e (docs db) = None ->
   forall u', findOne e (docs (store (app env req db))) = Some u' ->
              registeredAt u' = now env) /\
  (forall u reqs, findOne e (docs db) = Some u ->
     exists u', findOne e (docs (run reqs db)) = Some u' /\
                registeredAt u' = registeredAt u).
Proof.
  split.
  - intros Hf.
    pose proof (step_registeredAt _ _ _ e (app_store_step env req db)) as Hs.
    now rewrite Hf in Hs.
  - intros u reqs Hf.
    destruct (run_registeredAt reqs db e u Hf) as (u' & Hf' & Hr & _).
    eauto.
Qed.

Lemma registeredAt_set_once_witness :
  (forall u',
     findOne "b@x.com"
       (docs (store (app (up 3000)
                       {| session_user := None;
                          route := POST_api_register_email
                                     {| rb_email := JStr "b@x.com" |} |}
                       db_ann))) = Some u' ->
     registeredAt u' = 3000%Z) /\
  (exists u',
     findOne "a@x.com"
       (docs (run [ (up 4000, {| session_user := Some 0;
                                 route := GET_auth_linkedin_callback linkedin_ann |});
                    (up 5000, {| session_user := None;
                                 route := POST_api_update_details details_ann |}) ]
                db_ann)) = Some u' /\
     registeredAt u' = 1000%Z).
Proof.
  split.
  - apply (proj1 (registeredAt_set_once (up 3000)
             {| session_user := None;
                route := POST_api_register_email {| rb_email := JStr "b@x.com" |} |}
             db_ann "b@x.com")).
    reflexivity.
  - apply (proj2 (registeredAt_set_once (up 3000) health_plain db_ann "a@x.com")
             ann).
    reflexivity.
Defined.

(** C7: in every state reached from the empty store by any sequence of
    requests (register-email, update-details, provider callbacks), no two
    records have the same email: each email has at most one record. *)
Theorem one_record_per_email (reqs : list (Env * Request)) :
  unique_emails (run reqs empty_db) /\
  forall e, count_email e (run reqs empty_db) <= 1.
Proof.
  assert (Hu : unique_emails (run reqs empty_db))
    by (apply run_preserves_unique; constructor).
  split; [exact Hu|]. intros e. now apply unique_count_le.
Qed.

(** ** Health check *)

(** C9, as the specification states it, fails for a request that carries
    a logged-in session while the store does not answer: the session
    middleware in front of every route loads the user from the store,
    fails, and the request ends with status 500 before the health handler
    runs.  The same request is answered 200 when the store answers. *)
Lemma health_with_session_needs_store :
  app (down 5000) health_with_session db_ann =
    {| response := ErrorPage 500; login := None; store := db_ann |} /\
  status_of (response (app (down 5000) health_with_session db_ann)) <> 200 /\
  status_of (response (app (up 5000) health_with_session db_ann)) = 200.
Proof. repeat split. vm_compute. discriminate. Qed.

(** C9 (amended): GET /health returns 200 with the status field and the
    current time, and changes nothing, whatever the store holds, for
    every request that carries no logged-in session (then also whether or
    not the store answers) and for every request whose store answers. *)
Theorem health_always_ok (env : Env) (req : Request) (db : Db) :
  route req = GET_health ->
  session_user req = None \/ store_up env = true ->
  app env req db =
    {| response := Json 200 (HealthBody "QPS Kernel Active" (now env));
       login := None; store := db |}.
Proof.
  intros Hr Hs. unfold app. rewrite Hr.
  destruct (session_user req) as [id|]; [|reflexivity].
  destruct Hs as [Hs|Hup]; [discriminate|].
  unfold_handler. now rewrite Hup.
Qed.

Lemma health_always_ok_witness :
  app (down 5000) health_plain db_ann =
    {| response := Json 200 (HealthBody "QPS Kernel Active" 5000);
       login := None; store := db_ann |}.
Proof.
  apply (health_always_ok (down 5000) health_plain db_ann).
  - reflexivity.
  - left. reflexivity.
Defined.

(** * Further properties of the handlers *)

Module MoreFacts.

Import StoreFacts HandlerFacts.

(** The guard of register-email passes exactly the valid emails. *)
Lemma register_guard (v : jsval) :
  negb (truthy v) || negb (includes (str v) "@") = false <-> valid_email v.
Proof.
  unfold valid_email. split.
  - intros H. apply orb_false_elim in H. destruct H as [Ht Hi].
    apply negb_false_iff in Ht, Hi.
    destruct v as [| |e]; try discriminate. exists e. split; [reflexivity|].
    now apply includes_char.
  - intros (e & -> & He). cbn [str].
    assert (Ht : truthy (JStr e) = true)
      by (apply truthy_nonempty; now apply (has_char_nonempty "@")).
    apply includes_char in He. now rewrite Ht, He.
Qed.

Lemma register_email_valid_up (env : Env) (e : string) (db : Db) :
  store_up env = true -> has_char "@" e ->
  status_of (fst (register_email env {| rb_email := JStr e |} db)) = 200.
Proof.
  intros Hup He. apply includes_char in He.
  destruct (findOne e (docs db)) as [u|] eqn:Hf.
  - now rewrite (register_email_existing env e u db).
  - now rewrite (register_email_fresh env e db).
Qed.

Lemma update_details_rejects (env : Env) (body : DetailsBody) (db : Db) :
  truthy (db_email body) = false ->
  update_details env body db = (Json 400 (ErrorBody "Email required"), db).
Proof. intros H. unfold_handler. now rewrite H. Qed.

Lemma update_details_store_down (env : Env) (body : DetailsBody) (db : Db) :
  store_up env = false -> truthy (db_email body) = true ->
  update_details env body db = (Json 500 (ErrorBody "System Latency Error"), db).
Proof. intros Hup Ht. unfold_handler. now rewrite Ht, Hup. Qed.

Lemma update_details_up (env : Env) (body : DetailsBody) (db : Db) :
  store_up env = true -> truthy (db_email body) = true ->
  update_details env body db =
  (Json 200 (SavedBody "Details saved. You're now part of QPS waitlist!"
               (fst (findOneAndUpdate (now env) (str (db_email body))
                       {| set_email := None; set_provider := None;
                          set_fullName := db_fullName body;
                          set_country := db_country body;
                          set_profession := db_profession body;
                          set_source := db_source body |}
                       {| upsert := false; new := true |} db))),
   snd (findOneAndUpdate (now env) (str (db_email body))
          {| set_email := None; set_provider := None;
             set_fullName := db_fullName body;
             set_country := db_country body;
             set_profession := db_profession body;
             set_source := db_source body |}
          {| upsert := false; new := true |} db)).
Proof.
  intros Hup Ht. unfold_handler. rewrite Ht, Hup. cbn [negb].
  now destruct (findOneAndUpdate _ _ _ _ db).
Qed.

(** A verify callback, by the email it reads and the state of the store. *)
Lemma verify_no_email (env : Env) (provider_name err : string)
    (email name : jsval) (db : Db) :
  truthy email = false ->
  try_catch
    (if negb (truthy email) then ret (DoneError err)
     else user <- User_findOneAndUpdate env (str email)
                    {| set_email := Some (str email);
                       set_provider := Some provider_name;
                       set_fullName := name; set_country := JUndefined;
                       set_profession := JUndefined; set_source := JUndefined |}
                    {| upsert := true; new := true |} ;;
          ret (DoneUser user))
    DoneError db = (DoneError err, db).
Proof. intros H. unfold_handler. now rewrite H. Qed.

Lemma verify_store_down (env : Env) (provider_name err : string)
    (email name : jsval) (db : Db) :
  truthy email = true -> store_up env = false ->
  try_catch
    (if negb (truthy email) then ret (DoneError err)
     else user <- User_findOneAndUpdate env (str email)
                    {| set_email := Some (str email);
                       set_provider := Some provider_name;
                       set_fullName := name; set_country := JUndefined;
                       set_profession := JUndefined; set_source := JUndefined |}
                    {| upsert := true; new := true |} ;;
          ret (DoneUser user))
    DoneError db = (DoneError "MongoDB unreachable", db).
Proof. intros Ht Hup. unfold_handler. now rewrite Ht, Hup. Qed.

Lemma verify_store_up (env : Env) (provider_name err : string)
    (email name : jsval) (db : Db) :
  truthy email = true -> store_up env = true ->
  let upd := {| set_email := Some (str email);
                set_provider := Some provider_name;
                set_fullName := name; set_country := JUndefined;
                set_profession := JUndefined; set_source := JUndefined |} in
  let r := findOneAndUpdate (now env) (str email) upd
             {| upsert := true; new := true |} db in
  try_catch
    (if negb (truthy email) then ret (DoneError err)
     else user <- User_findOneAndUpdate env (str email) upd
                    {| upsert := true; new := true |} ;;
          ret (DoneUser user))
    DoneError db = (DoneUser (fst r), snd r).
Proof.
  intros Ht Hup upd r. subst r upd. unfold_handler. rewrite Ht, Hup.
  cbn [negb]. now destruct (findOneAndUpdate _ _ _ _ db).
Qed.

(** An upsert that asks for the new document always returns one: the
    document now stored under the key. *)
Lemma upsert_returns_stored (t : Z) (e : string) (upd : Update) (db : Db) :
  keeps_key e upd ->
  let r := findOneAndUpdate t e upd {| upsert := true; new := true |} db in
  exists u, fst r = Some u /\ findOne e (docs (snd r)) = Some u /\
            email u = e.
Proof.
  intros Hk r. subst r.
  destruct (findOne e (docs db)) as [u|] eqn:Hf.
  - rewrite (findOneAndUpdate_found _ _ _ _ _ _ Hf). cbn [fst snd new docs].
    exists (apply_update upd u). split; [reflexivity|].
    destruct (findOne_email _ _ _ Hf) as [Hu _].
    split; [|now apply email_apply_update].
    rewrite findOne_modify_first, Hf, String.eqb_refl; [reflexivity|].
    intros x Hx. now apply email_apply_update.
  - rewrite (findOneAndUpdate_missing _ _ _ _ _ Hf). cbn [upsert new fst snd docs].
    exists (new_doc t (next_id db) e upd). split; [reflexivity|].
    split; [|now apply email_new_doc].
    rewrite findOne_app_last, Hf, email_new_doc by assumption.
    now rewrite String.eqb_refl.
Qed.

End MoreFacts.

Import MoreFacts.

(** ** POST /api/register-email and POST /api/update-details *)

(** X1: for a body whose email is absent or a string, the status of
    register-email is decided by the email and the store alone: 400
    exactly when the email is absent or a string without '@', 500 exactly
    for a string containing '@' while the store does not answer, 200
    exactly for a string containing '@' while it does -- whether or not
    the email was known. *)
Theorem register_email_status (env : Env) (body : RegisterBody) (db : Db) :
  let s := status_of (fst (register_email env body db)) in
  (s = 400 <-> ~ valid_email (rb_email body)) /\
  (s = 500 <-> valid_email (rb_email body) /\ store_up env = false) /\
  (s = 200 <-> valid_email (rb_email body) /\ store_up env = true).
Proof.
  cbv zeta.
  destruct (negb (truthy (rb_email body)) ||
            negb (includes (str (rb_email body)) "@")) eqn:Hg.
  - assert (Hnv : ~ valid_email (rb_email body)).
    { intros Hv. apply register_guard in Hv. congruence. }
    rewrite register_email_rejects.
    2:{ apply orb_true_iff in Hg. destruct Hg as [Hg|Hg];
          apply negb_true_iff in Hg; auto. }
    cbn [fst status_of]. repeat split; try tauto; try discriminate.
  - apply register_guard in Hg. destruct Hg as (e & He & Hat).
    assert (Hv : valid_email (rb_email body)) by (exists e; auto).
    destruct body as [v]. cbn [rb_email] in *. subst v.
    destruct (store_up env) eqn:Hup.
    + rewrite (register_email_valid_up env e db Hup Hat).
      repeat split; try tauto; try discriminate; intuition discriminate.
    + apply includes_char in Hat.
      rewrite (register_email_store_down env e db Hup Hat). cbn [fst status_of].
      repeat split; try tauto; try discriminate; intuition discriminate.
Qed.

Module WriteFacts.

Import StoreFacts HandlerFacts MoreFacts.

(** The store after a route's handler: untouched, or the result of the
    one keyed [findOneAndUpdate] the route makes when its guard passes
    and the store answers. *)
Lemma register_email_write (env : Env) (body : RegisterBody) (db : Db) :
  snd (register_email env body db) =
  if store_up env && negb (negb (truthy (rb_email body)) ||
                           negb (includes (str (rb_email body)) "@"))
  then snd (findOneAndUpdate (now env) (str (rb_email body))
              {| set_email := Some (str (rb_email body)); set_provider := None;
                 set_fullName := JUndefined; set_country := JUndefined;
                 set_profession := JUndefined; set_source := JUndefined |}
              {| upsert := true; new := true |} db)
  else db.
Proof.
  unfold_handler.
  destruct (negb (truthy (rb_email body)) ||
            negb (includes (str (rb_email body)) "@"));
    [now rewrite andb_false_r|].
  destruct (store_up env); [|reflexivity]. cbn [andb negb].
  destruct (findOneAndUpdate _ _ _ _ db) as [[u|] db']; reflexivity.
Qed.

Lemma update_details_write (env : Env) (body : DetailsBody) (db : Db) :
  snd (update_details env body db) =
  if store_up env && truthy (db_email body)
  then snd (findOneAndUpdate (now env) (str (db_email body))
              {| set_email := None; set_provider := None;
                 set_fullName := db_fullName body;
                 set_country := db_country body;
                 set_profession := db_profession body;
                 set_source := db_source body |}
              {| upsert := false; new := true |} db)
  else db.
Proof.
  unfold_handler.
  destruct (truthy (db_email body)); [|now rewrite andb_false_r].
  destruct (store_up env); [|reflexivity]. cbn [andb negb].
  now destruct (findOneAndUpdate _ _ _ _ db).
Qed.

Lemma verify_write (env : Env) (provider_name err : string)
    (email name : jsval) (db : Db) :
  let upd := {| set_email := Some (str email);
                set_provider := Some provider_name; set_fullName := name;
                set_country := JUndefined; set_profession := JUndefined;
                set_source := JUndefined |} in
  snd (try_catch
         (if negb (truthy email) then ret (DoneError err)
          else user <- User_findOneAndUpdate env (str email) upd
                         {| upsert := true; new := true |} ;;
               ret (DoneUser user))
         DoneError db) =
  if store_up env && truthy email
  then snd (findOneAndUpdate (now env) (str email) upd
              {| upsert := true; new := true |} db)
  else db.
Proof.
  unfold_handler.
  destruct (truthy email); [|now rewrite andb_false_r].
  destruct (store_up env); [|reflexivity]. cbn [andb negb].
  now destruct (findOneAndUpdate _ _ _ _ db).
Qed.

(** Every route's write is keyed by the email the route reads, with an
    update that keeps that key. *)
Lemma dispatch_write (env : Env) (r : Route) (db : Db) :
  store (dispatch env r db) = db \/
  (store_up env = true /\ truthy (route_key r) = true /\
   exists upd opts,
     keeps_key (str (route_key r)) upd /\
     store (dispatch env r db) =
       snd (findOneAndUpdate (now env) (str (route_key r)) upd opts db)).
Proof.
  destruct r as [profile|profile|body|body|]; cbn [dispatch route_key].
  - unfold google_callback. rewrite oauth_callback_store.
    unfold google_verify. rewrite verify_write.
    destruct (store_up env); [|now left].
    destruct (truthy (first_email profile)); [|now left].
    right. repeat split. do 2 eexists. split; [|reflexivity]. keeps.
  - unfold linkedin_callback. rewrite oauth_callback_store.
    unfold linkedin_verify. rewrite verify_write.
    destruct (store_up env); [|now left].
    destruct (truthy (or_else (email_claim profile) (first_email profile)));
      [|now left].
    right. repeat split. do 2 eexists. split; [|reflexivity]. keeps.
  - pose proof (register_email_write env body db) as H.
    destruct (register_email env body db) as [res db']. cbn [snd store] in *.
    destruct (store_up env); [|now left].
    destruct (truthy (rb_email body)); [|now left].
    destruct (includes (str (rb_email body)) "@"); [|now left].
    right. repeat split. do 2 eexists. split; [|exact H]. keeps.
  - pose proof (update_details_write env body db) as H.
    destruct (update_details env body db) as [res db']. cbn [snd store] in *.
    destruct (store_up env); [|now left].
    destruct (truthy (db_email body)); [|now left].
    right. repeat split. do 2 eexists. split; [|exact H]. keeps.
  - now left.
Qed.

Lemma findOneAndUpdate_other_key (t : Z) (e : string) (upd : Update)
    (opts : Options) (db : Db) (e0 : string) :
  keeps_key e upd -> e0 <> e ->
  findOne e0 (docs (snd (findOneAndUpdate t e upd opts db))) =
  findOne e0 (docs db).
Proof.
  intros Hk Hne. rewrite findOne_findOneAndUpdate by assumption.
  destruct (String.eqb_spec e0 e); [contradiction|].
  rewrite andb_false_r. now destruct (findOne e0 (docs db)).
Qed.

Lemma apply_update_idem (upd : Update) (u : User) :
  apply_update upd (apply_update upd u) = apply_update upd u.
Proof.
  unfold apply_update. cbn.
  destruct (set_email upd), (set_provider upd), (set_fullName upd),
    (set_country upd), (set_profession upd), (set_source upd); reflexivity.
Qed.

Lemma modify_first_idem (e : string) (f : User -> User) (l : list User) :
  (forall u, email u = e -> email (f u) = e) ->
  (forall u, f (f u) = f u) ->
  modify_first e f (modify_first e f l) = modify_first e f l.
Proof.
  intros Hk Hi. induction l as [|x l IH]; cbn [modify_first]; [reflexivity|].
  destruct (String.eqb_spec (email x) e) as [Heq|Hne]; cbn [modify_first].
  - rewrite (Hk x Heq), String.eqb_refl. now rewrite Hi.
  - destruct (String.eqb_spec (email x) e); [contradiction|]. now rewrite IH.
Qed.

Lemma modify_first_app_last (e : string) (f : User -> User) (l : list User)
    (x : User) :
  findOne e l = None ->
  modify_first e f (l ++ [x]) =
  (l ++ [if String.eqb (email x) e then f x else x])%list.
Proof.
  induction l as [|y l IH]; simpl.
  - intros _. now destruct (String.eqb (email x) e).
  - destruct (String.eqb (email y) e); [discriminate|].
    intros H. now rewrite IH.
Qed.

(** Asking the store for the same keyed update again changes nothing. *)
Lemma findOneAndUpdate_again (t1 t2 : Z) (e : string) (upd : Update)
    (opts : Options) (db : Db) :
  keeps_key e upd ->
  snd (findOneAndUpdate t2 e upd opts (snd (findOneAndUpdate t1 e upd opts db)))
  = snd (findOneAndUpdate t1 e upd opts db).
Proof.
  intros Hk.
  assert (Hkeep : forall u, email u = e -> email (apply_update upd u) = e)
    by (intros u; now apply email_apply_update).
  destruct (findOne e (docs db)) as [u|] eqn:Hf.
  - rewrite (findOneAndUpdate_found t1 _ _ _ _ _ Hf). cbn [snd].
    assert (Hf1 : findOne e (docs {| docs := modify_first e (apply_update upd) (docs db);
                                     next_id := next_id db |})
                  = Some (apply_update upd u)).
    { cbn [docs]. rewrite findOne_modify_first, Hf, String.eqb_refl by assumption.
      reflexivity. }
    rewrite (findOneAndUpdate_found t2 _ _ _ _ _ Hf1). cbn [snd docs next_id].
    rewrite modify_first_idem; auto using apply_update_idem.
  - rewrite (findOneAndUpdate_missing t1 _ _ _ _ Hf).
    destruct (upsert opts) eqn:Hup; cbn [snd].
    + assert (Hf1 : findOne e (docs {| docs := (docs db ++ [new_doc t1 (next_id db) e upd])%list;
                                       next_id := S (next_id db) |})
                    = Some (new_doc t1 (next_id db) e upd)).
      { cbn [docs]. rewrite findOne_app_last, Hf, email_new_doc by assumption.
        now rewrite String.eqb_refl. }
      rewrite (findOneAndUpdate_found t2 _ _ _ _ _ Hf1). cbn [snd docs next_id].
      rewrite modify_first_app_last by assumption.
      rewrite email_new_doc, String.eqb_refl by assumption.
      unfold new_doc. now rewrite apply_update_idem.
    + rewrite (findOneAndUpdate_missing t2 _ _ _ _ Hf). now rewrite Hup.
Qed.

(** The store after a request, in terms of the write of its route. *)
Lemma dispatch_store (env : Env) (r : Route) (db : Db) :
  store (dispatch env r db) =
  match route_write r with
  | Some (e, upd, opts) =>
      if store_up env then snd (findOneAndUpdate (now env) e upd opts db)
      else db
  | None => db
  end.
Proof.
  destruct r as [profile|profile|body|body|]; cbn [dispatch route_write].
  - unfold google_callback. rewrite oauth_callback_store.
    unfold google_verify. rewrite verify_write.
    destruct (truthy (first_email profile)); [|now rewrite andb_false_r].
    now rewrite andb_true_r.
  - unfold linkedin_callback. rewrite oauth_callback_store.
    unfold linkedin_verify. rewrite verify_write.
    destruct (truthy (or_else (email_claim profile) (first_email profile)));
      [|now rewrite andb_false_r].
    now rewrite andb_true_r.
  - pose proof (register_email_write env body db) as H.
    destruct (register_email env body db) as [res db']. cbn [snd store] in *.
    rewrite H.
    destruct (negb (truthy (rb_email body)) ||
              negb (includes (str (rb_email body)) "@"));
      [now rewrite andb_false_r | now rewrite andb_true_r].
  - pose proof (update_details_write env body db) as H.
    destruct (update_details env body db) as [res db']. cbn [snd store] in *.
    rewrite H.
    destruct (truthy (db_email body));
      [now rewrite andb_true_r | now rewrite andb_false_r].
  - reflexivity.
Qed.

Lemma route_write_keeps (r : Route) (e : string) (upd : Update) (opts : Options) :
  route_write r = Some (e, upd, opts) ->
  keeps_key e upd /\ route_key r = JStr e /\ e <> "".
Proof.
  assert (Hs : forall v, truthy v = true -> v = JStr (str v) /\ str v <> "").
  { intros [| |[|c s']]; try discriminate. intros _. split; [reflexivity|discriminate]. }
  destruct r as [profile|profile|body|body|]; cbn [route_write route_key].
  - destruct (truthy (first_email profile)) eqn:Ht; [|discriminate].
    intros [= <- <- <-]. destruct (Hs _ Ht). repeat split; auto. keeps.
  - destruct (truthy (or_else (email_claim profile) (first_email profile)))
      eqn:Ht; [|discriminate].
    intros [= <- <- <-]. destruct (Hs _ Ht). repeat split; auto. keeps.
  - destruct (truthy (rb_email body)) eqn:Ht; cbn [negb orb]; [|discriminate].
    destruct (includes (str (rb_email body)) "@"); cbn [negb]; [|discriminate].
    intros [= <- <- <-]. destruct (Hs _ Ht). repeat split; auto. keeps.
  - destruct (truthy (db_email body)) eqn:Ht; [|discriminate].
    intros [= <- <- <-]. destruct (Hs _ Ht). repeat split; auto. keeps.
  - discriminate.
Qed.

(** With the store answering, the session does not change what a request
    writes. *)
Lemma app_store (env : Env) (req : Request) (db : Db) :
  store (app env req db) = store (dispatch env (route req) db).
Proof.
  unfold app. destruct (session_user req) as [id|]; [|reflexivity].
  unfold_handler. destruct (store_up env) eqn:Hup; [reflexivity|].
  cbn [store]. rewrite dispatch_store, Hup.
  now destruct (route_write (route req)) as [[[e upd] opts]|].
Qed.

End WriteFacts.

Import WriteFacts.

(** X4: register-email never modifies or removes a stored record.  The
    collection afterwards is the collection before, or the collection
    before with one record appended: the record of the body's email, which
    no record had, with the next free id, provider 'local', the time of
    the request and no details. *)
Theorem register_email_only_appends (env : Env) (body : RegisterBody) (db : Db) :
  snd (register_email env body db) = db \/
  exists e,
    rb_email body = JStr e /\ findOne e (docs db) = None /\
    snd (register_email env body db) =
      {| docs := (docs db ++
                  [ {| _id := next_id db; email := e; fullName := None;
                       country := None; profession := None; source := None;
                       provider := "local"; registeredAt := now env |} ])%list;
         next_id := S (next_id db) |}.
Proof.
  destruct (negb (truthy (rb_email body)) ||
            negb (includes (str (rb_email body)) "@")) eqn:Hg.
  - left. rewrite register_email_rejects; [reflexivity|].
    apply orb_true_iff in Hg. destruct Hg as [Hg|Hg];
      apply negb_true_iff in Hg; auto.
  - apply register_guard in Hg. destruct Hg as (e & He & Hat).
    destruct body as [v]. cbn [rb_email] in *. subst v.
    apply includes_char in Hat.
    destruct (store_up env) eqn:Hup.
    + destruct (findOne e (docs db)) as [u|] eqn:Hf.
      * left. now rewrite (register_email_existing env e u db).
      * right. exists e. repeat split; [assumption|].
        now rewrite (register_email_fresh env e db).
    + left. now rewrite (register_email_store_down env e db).
Qed.

(** X5: update-details never creates or removes a record and never
    touches what identifies one: the ids, emails, providers and
    registration times of the collection, in order, and the next free id
    are the same after the call, for every body and environment. *)
Theorem update_details_keeps_identities (env : Env) (body : DetailsBody)
    (db : Db) :
  map identity_of (docs (snd (update_details env body db))) =
    map identity_of (docs db) /\
  next_id (snd (update_details env body db)) = next_id db.
Proof.
  rewrite update_details_write.
  destruct (store_up env && truthy (db_email body)); [|split; reflexivity].
  unfold findOneAndUpdate.
  destruct (findOne (str (db_email body)) (docs db)) as [u|];
    cbn [upsert snd docs next_id]; [|split; reflexivity].
  split; [|reflexivity].
  induction (docs db) as [|x l IH]; cbn [modify_first map]; [reflexivity|].
  destruct (String.eqb (email x) (str (db_email body))); cbn [map].
  - reflexivity.
  - now rewrite IH.
Qed.

(** X6: a request whose email is absent or a string touches only the
    record of that email: the record stored for any other email is the
    same before and after, for every route, session and environment. *)
Theorem request_touches_only_its_email (env : Env) (req : Request) (db : Db)
    (e' : string) :
  route_key (route req) <> JStr e' ->
  findOne e' (docs (store (app env req db))) = findOne e' (docs db).
Proof.
  intros Hne. rewrite app_store, dispatch_store.
  destruct (route_write (route req)) as [[[e upd] opts]|] eqn:Hw;
    [|reflexivity].
  destruct (store_up env); [|reflexivity].
  destruct (route_write_keeps _ _ _ _ Hw) as (Hk & Hkey & _).
  apply findOneAndUpdate_other_key; [assumption|].
  intros ->. now apply Hne.
Qed.

Lemma request_touches_only_its_email_witness :
  findOne "b@x.com"
    (docs (store (app (up 9000)
                    {| session_user := None;
                       route := POST_api_update_details details_ann |}
                    db_two))) = Some bea.
Proof.
  rewrite (request_touches_only_its_email (up 9000)
             {| session_user := None;
                route := POST_api_update_details details_ann |}
             db_two "b@x.com").
  - reflexivity.
  - discriminate.
Defined.

(** X7: replaying a request does not change the store again.  After a
    request handled while the store answers, the same request (same
    route, same body or assertion, at any later time, with the store
    answering or not) leaves the store exactly as the first one left
    it. *)
Theorem replayed_request_changes_nothing (env1 env2 : Env) (req : Request)
    (db : Db) :
  store_up env1 = true ->
  store (app env2 req (store (app env1 req db))) = store (app env1 req db).
Proof.
  intros Hup. rewrite !app_store, !dispatch_store, Hup.
  destruct (route_write (route req)) as [[[e upd] opts]|] eqn:Hw;
    [|reflexivity].
  destruct (store_up env2); [|reflexivity].
  destruct (route_write_keeps _ _ _ _ Hw) as (Hk & _).
  now apply findOneAndUpdate_again.
Qed.

Lemma replayed_request_changes_nothing_witness :
  let req := {| session_user := None;
                route := GET_auth_google_callback google_ann |} in
  store (app (up 7000) req (store (app (up 6000) req empty_db))) =
  store (app (up 6000) req empty_db).
Proof.
  apply (replayed_request_changes_nothing (up 6000) (up 7000)).
  reflexivity.
Defined.

(** ** OAuth callbacks *)

Module CallbackFacts.

Import StoreFacts HandlerFacts MoreFacts WriteFacts.

Lemma truthy_str (v : jsval) : truthy v = true -> v = JStr (str v) /\ str v <> "".
Proof.
  destruct v as [| |[|c s]]; try discriminate.
  intros _. split; [reflexivity | discriminate].
Qed.

Lemma written_assign (v : jsval) (old : option string) :
  written v old (assign v old).
Proof. now destruct v. Qed.

(** The outcome of a callback route over a verify callback of the shape
    both strategies use. *)
Lemma oauth_outcome (env : Env) (provider_name err : string)
    (email name : jsval) (profile : Profile) (db : Db)
    (verify : Profile -> Db -> Verified * Db) :
  verify profile =
    try_catch
      (if negb (truthy email) then ret (DoneError err)
       else user <- User_findOneAndUpdate env (str email)
                      {| set_email := Some (str email);
                         set_provider := Some provider_name;
                         set_fullName := name; set_country := JUndefined;
                         set_profession := JUndefined;
                         set_source := JUndefined |}
                      {| upsert := true; new := true |} ;;
            ret (DoneUser user))
      DoneError ->
  if truthy email && store_up env
  then logged_in provider_name (str email) name db
         (oauth_callback verify profile db)
  else failed_with_500 db (oauth_callback verify profile db).
Proof.
  intros Hv. unfold oauth_callback, authenticate. rewrite Hv. clear Hv.
  pose proof (verify_store_up env provider_name err email name db) as Hok.
  pose proof (verify_store_down env provider_name err email name db) as Hdown.
  pose proof (verify_no_email env provider_name err email name db) as Hno.
  cbv zeta in Hok.
  set (upd := {| set_email := Some (str email);
                 set_provider := Some provider_name;
                 set_fullName := name; set_country := JUndefined;
                 set_profession := JUndefined; set_source := JUndefined |}) in *.
  assert (Hk : keeps_key (str email) upd) by keeps.
  destruct (upsert_returns_stored (now env) (str email) upd db Hk)
    as (u & Hfst & Hfind & Hemail).
  cbv zeta in Hfst, Hfind.
  assert (Hname : written name
            (match findOne (str email) (docs db) with
             | Some u0 => fullName u0 | None => None end) (fullName u) /\
          provider u = provider_name).
  { rewrite findOne_findOneAndUpdate, String.eqb_refl in Hfind by assumption.
    cbn [upsert andb] in Hfind.
    destruct (findOne (str email) (docs db)); injection Hfind as <-;
      (split; [apply written_assign | reflexivity]). }
  destruct Hname as [Hname Hprov].
  destruct (truthy email); cbn [andb].
  - destruct (store_up env).
    + rewrite (Hok eq_refl eq_refl), Hfst.
      exists u. cbn [response login store serializeUser].
      rewrite Hemail. repeat split; assumption.
    + now rewrite (Hdown eq_refl eq_refl).
  - now rewrite (Hno eq_refl).
Qed.

Lemma oauth_callback_outcome_aux (env : Env) (profile : Profile) (db : Db) :
  (if truthy (first_email profile) && store_up env
   then logged_in "google" (str (first_email profile)) (displayName profile) db
          (google_callback env profile db)
   else failed_with_500 db (google_callback env profile db)) /\
  (let email := or_else (email_claim profile) (first_email profile) in
   if truthy email && store_up env
   then logged_in "linkedin" (str email) (displayName profile) db
          (linkedin_callback env profile db)
   else failed_with_500 db (linkedin_callback env profile db)).
Proof.
  split.
  - unfold google_callback.
    apply oauth_outcome with (err := "No email in Google profile").
    reflexivity.
  - cbv zeta. unfold linkedin_callback.
    apply oauth_outcome with (err := "No email in LinkedIn profile").
    reflexivity.
Qed.

End CallbackFacts.

Import CallbackFacts.


(** X9: once the provider returned a profile, a callback never takes the
    failure redirect: whatever the profile, the store and its
    reachability, the response is not a redirect to '/error'. *)
Theorem oauth_callback_never_redirects_to_error (env : Env) (profile : Profile)
    (db : Db) :
  response (google_callback env profile db) <> Redirect "/error" /\
  response (linkedin_callback env profile db) <> Redirect "/error".
Proof.
  destruct (oauth_callback_outcome_aux env profile db) as [Hg Hl].
  split.
  - destruct (truthy (first_email profile) && store_up env).
    + destruct Hg as (u & -> & _). discriminate.
    + rewrite Hg. discriminate.
  - cbv zeta in Hl.
    destruct (truthy (or_else (email_claim profile) (first_email profile))
              && store_up env).
    + destruct Hl as (u & -> & _). discriminate.
    + rewrite Hl. discriminate.
Qed.

(** X10: the LinkedIn strategy prefers [profile.email] and falls back to
    the first entry of [profile.emails] exactly when [profile.email] is
    absent or empty: in both cases, with the store answering, the user of
    that email is the one logged in and written. *)
Theorem linkedin_email_precedence (env : Env) (profile : Profile) (db : Db)
    (e : string) :
  store_up env = true -> e <> "" ->
  email_claim profile = JStr e \/
  (truthy (email_claim profile) = false /\ first_email profile = JStr e) ->
  logged_in "linkedin" e (displayName profile) db
    (linkedin_callback env profile db).
Proof.
  intros Hup Hne Hsrc.
  assert (Hkey : or_else (email_claim profile) (first_email profile) = JStr e).
  { unfold or_else. destruct Hsrc as [Hc | [Hc Hf]].
    - rewrite Hc. now rewrite (proj2 (truthy_nonempty e) Hne).
    - now rewrite Hc. }
  pose proof (proj2 (oauth_callback_outcome_aux env profile db)) as H.
  cbv zeta in H. rewrite Hkey, Hup in H.
  rewrite (proj2 (truthy_nonempty e) Hne) in H. exact H.
Qed.

Lemma linkedin_email_precedence_witness :
  logged_in "linkedin" "a@x.com" (JStr "Ann L") db_two
    (linkedin_callback (up 8000) linkedin_both db_two) /\
  logged_in "linkedin" "b@x.com" JNull db_two
    (linkedin_callback (up 8000) linkedin_fallback db_two).
Proof.
  split.
  - apply (linkedin_email_precedence (up 8000) linkedin_both db_two "a@x.com").
    + reflexivity.
    + discriminate.
    + left. reflexivity.
  - apply (linkedin_email_precedence (up 8000) linkedin_fallback db_two "b@x.com").
    + reflexivity.
    + discriminate.
    + right. split; reflexivity.
Defined.

(** ** Ids and sessions *)

Module IdFacts.

Import StoreFacts HandlerFacts MoreFacts WriteFacts CallbackFacts.

Lemma map_id_modify_first (e : string) (upd : Update) (l : list User) :
  map _id (modify_first e (apply_update upd) l) = map _id l.
Proof.
  induction l as [|x l IH]; cbn [modify_first map]; [reflexivity|].
  destruct (String.eqb (email x) e); cbn [map]; [reflexivity|].
  now rewrite IH.
Qed.

Lemma ids_fresh_findOneAndUpdate (t : Z) (e : string) (upd : Update)
    (opts : Options) (db : Db) :
  ids_fresh db -> ids_fresh (snd (findOneAndUpdate t e upd opts db)).
Proof.
  unfold ids_fresh. intros [Hnd Hlt].
  rewrite <- (Forall_map _id (fun i => i < next_id db)) in Hlt.
  unfold findOneAndUpdate.
  destruct (findOne e (docs db)) as [u|]; cbn [snd docs next_id].
  - rewrite <- (Forall_map _id (fun i => i < next_id db)).
    rewrite map_id_modify_first. now split.
  - destruct (upsert opts); cbn [snd docs next_id].
    + rewrite <- (Forall_map _id (fun i => i < S (next_id db))).
      rewrite map_app. cbn [map]. change (_id (new_doc t (next_id db) e upd))
        with (next_id db).
      split.
      * apply NoDup_app; [assumption | repeat constructor; intros [] |].
        intros i Hi [<-|[]].
        rewrite Forall_forall in Hlt. specialize (Hlt _ Hi). lia.
      * apply Forall_app. split.
        -- eapply Forall_impl; [|exact Hlt]. cbv beta. intros; lia.
        -- repeat constructor.
    + rewrite <- (Forall_map _id (fun i => i < next_id db)). now split.
Qed.

Lemma ids_fresh_app (env : Env) (req : Request) (db : Db) :
  ids_fresh db -> ids_fresh (store (app env req db)).
Proof.
  intros H. rewrite app_store, dispatch_store.
  destruct (route_write (route req)) as [[[e upd] opts]|]; [|assumption].
  destruct (store_up env); [|assumption].
  now apply ids_fresh_findOneAndUpdate.
Qed.

Lemma ids_fresh_run (reqs : list (Env * Request)) (db : Db) :
  ids_fresh db -> ids_fresh (run reqs db).
Proof.
  unfold run. revert db.
  induction reqs as [|[env req] reqs IH]; intros db H; cbn [fold_left];
    [assumption|].
  apply IH. now apply ids_fresh_app.
Qed.

(** With ids of their own, looking a stored document up by its id finds
    that document. *)
Lemma findById_stored (db : Db) (u : User) :
  NoDup (map _id (docs db)) -> In u (docs db) ->
  findById (_id u) db = Some u.
Proof.
  unfold findById. induction (docs db) as [|x l IH]; cbn [find map In];
    [tauto|].
  intros Hnd Hin. inversion Hnd as [|? ? Hnotin Hnd']; subst.
  destruct Hin as [->|Hin].
  - now rewrite Nat.eqb_refl.
  - destruct (Nat.eqb_spec (_id x) (_id u)) as [Heq|Hne]; [|now apply IH].
    exfalso. apply Hnotin. rewrite Heq. now apply in_map.
Qed.

(** A request that logs a user in stores that user under the email the
    route read. *)
Lemma dispatch_login (env : Env) (r : Route) (db : Db) (id : nat) :
  login (dispatch env r db) = Some id ->
  exists u, _id u = id /\ route_key r = JStr (email u) /\
            findOne (email u) (docs (store (dispatch env r db))) = Some u.
Proof.
  destruct r as [profile|profile|body|body|]; cbn [dispatch route_key].
  - pose proof (proj1 (oauth_callback_outcome_aux env profile db)) as H.
    destruct (truthy (first_email profile)) eqn:Ht; cbn [andb] in H.
    + destruct (store_up env).
      * destruct H as (u & _ & Hl & Hf & He & _). rewrite Hl. intros [= <-].
        exists u. rewrite He. repeat split; [|assumption].
        now destruct (truthy_str _ Ht).
      * rewrite H. discriminate.
    + rewrite H. discriminate.
  - pose proof (proj2 (oauth_callback_outcome_aux env profile db)) as H.
    cbv zeta in H.
    destruct (truthy (or_else (email_claim profile) (first_email profile)))
      eqn:Ht; cbn [andb] in H.
    + destruct (store_up env).
      * destruct H as (u & _ & Hl & Hf & He & _). rewrite Hl. intros [= <-].
        exists u. rewrite He. repeat split; [|assumption].
        now destruct (truthy_str _ Ht).
      * rewrite H. discriminate.
    + rewrite H. discriminate.
  - destruct (register_email env body db). discriminate.
  - destruct (update_details env body db). discriminate.
  - discriminate.
Qed.

Lemma app_login (env : Env) (req : Request) (db : Db) (id : nat) :
  login (app env req db) = Some id ->
  login (dispatch env (route req) db) = Some id.
Proof.
  unfold app. destruct (session_user req) as [sid|]; [|tauto].
  unfold_handler. destruct (store_up env); [tauto | discriminate].
Qed.

Lemma length_findOneAndUpdate (t : Z) (e : string) (upd : Update)
    (opts : Options) (db : Db) :
  List.length (docs db) <=
  List.length (docs (snd (findOneAndUpdate t e upd opts db))).
Proof.
  unfold findOneAndUpdate.
  destruct (findOne e (docs db)) as [u|]; cbn [snd docs].
  - apply Nat.eq_le_incl. clear.
    induction (docs db) as [|x l IH]; cbn [modify_first List.length];
      [reflexivity|].
    destruct (String.eqb (email x) e); cbn [List.length]; congruence.
  - destruct (upsert opts); cbn [snd docs]; [|reflexivity].
    rewrite length_app. lia.
Qed.

Lemma length_run (reqs : list (Env * Request)) (db : Db) :
  List.length (docs db) <= List.length (docs (run reqs db)).
Proof.
  unfold run. revert db.
  induction reqs as [|[env req] reqs IH]; intros db; cbn [fold_left];
    [reflexivity|].
  etransitivity; [|apply IH]. cbn [fst snd].
  rewrite app_store, dispatch_store.
  destruct (route_write (route req)) as [[[e upd] opts]|]; [|reflexivity].
  destruct (store_up env); [|reflexivity].
  apply length_findOneAndUpdate.
Qed.

End IdFacts.

Import IdFacts.

(** X11: a login survives to the next request.  When a request logs a
    user in (binds the session to an id), then, on a store whose ids are
    unique, deserializing that id on any later request while the store
    answers yields the record stored for the email the login was for, and
    writes nothing. *)
Theorem login_round_trip (env env' : Env) (req : Request) (db : Db) (id : nat) :
  ids_fresh db -> store_up env' = true ->
  login (app env req db) = Some id ->
  exists u,
    deserializeUser env' id (store (app env req db)) =
      (DoneUser (Some u), store (app env req db)) /\
    serializeUser u = id /\
    route_key (route req) = JStr (email u) /\
    findOne (email u) (docs (store (app env req db))) = Some u.
Proof.
  intros Hfresh Hup Hlogin.
  pose proof (ids_fresh_app env req db Hfresh) as [Hnd _].
  apply app_login in Hlogin.
  destruct (dispatch_login _ _ _ _ Hlogin) as (u & Hid & Hkey & Hf).
  rewrite <- app_store in Hf.
  exists u. repeat split; try assumption.
  unfold_handler. rewrite Hup.
  destruct (findOne_email _ _ _ Hf) as [_ Hin].
  rewrite <- Hid. now rewrite (findById_stored _ u Hnd Hin).
Qed.

Lemma login_round_trip_witness :
  exists u,
    deserializeUser (up 9000) 1
      (store (app (up 8000)
                {| session_user := None;
                   route := GET_auth_linkedin_callback linkedin_fallback |}
                db_two)) =
      (DoneUser (Some u),
       store (app (up 8000)
                {| session_user := None;
                   route := GET_auth_linkedin_callback linkedin_fallback |}
                db_two)) /\
    serializeUser u = 1 /\
    route_key (GET_auth_linkedin_callback linkedin_fallback) = JStr (email u) /\
    findOne (email u)
      (docs (store (app (up 8000)
                      {| session_user := None;
                         route := GET_auth_linkedin_callback linkedin_fallback |}
                      db_two))) = Some u.
Proof.
  apply (login_round_trip (up 8000) (up 9000)
           {| session_user := None;
              route := GET_auth_linkedin_callback linkedin_fallback |}
           db_two 1).
  - split.
    + repeat constructor; simpl; intuition discriminate.
    + repeat constructor.
  - reflexivity.
  - reflexivity.
Defined.

(** X12: with a logged-in session and a store that does not answer, every
    route -- not only the health check -- ends in the error handler with
    status 500 before its own handler runs: nobody is logged in and
    nothing is written. *)
Theorem session_needs_store (env : Env) (req : Request) (db : Db) (id : nat) :
  store_up env = false -> session_user req = Some id ->
  app env req db = {| response := ErrorPage 500; login := None; store := db |}.
Proof.
  intros Hup Hs. unfold app. rewrite Hs. unfold_handler. now rewrite Hup.
Qed.

Lemma session_needs_store_witness :
  app (down 9000) register_ann db_two =
    {| response := ErrorPage 500; login := None; store := db_two |}.
Proof.
  apply (session_needs_store (down 9000) register_ann db_two 0); reflexivity.
Defined.

(** X13: while the store answers, the session of a request has no
    influence on how it is handled: whether it carries no session, the id
    of a stored user or an id no record has, the outcome is that of the
    route's handler alone. *)
Theorem session_is_transparent (env : Env) (req : Request) (db : Db) :
  store_up env = true -> app env req db = dispatch env (route req) db.
Proof.
  intros Hup. unfold app. destruct (session_user req) as [id|]; [|reflexivity].
  unfold_handler. now rewrite Hup.
Qed.

Lemma session_is_transparent_witness :
  app (up 9000) {| session_user := Some 77; route := GET_health |} db_two =
  dispatch (up 9000) GET_health db_two.
Proof.
  apply (session_is_transparent (up 9000)
           {| session_user := Some 77; route := GET_health |} db_two).
  reflexivity.
Defined.

(** X14: the [userId] a successful register-email returns is the id of
    the record that is stored for the body's email after the call. *)
Theorem register_email_returns_stored_id (env : Env) (body : RegisterBody)
    (db : Db) :
  status_of (fst (register_email env body db)) = 200 ->
  exists e u,
    rb_email body = JStr e /\
    fst (register_email env body db) =
      Json 200 (SeededBody "✅ Logic Seeded" (_id u)) /\
    findOne e (docs (snd (register_email env body db))) = Some u /\
    email u = e.
Proof.
  intros Hok.
  destruct (negb (truthy (rb_email body)) ||
            negb (includes (str (rb_email body)) "@")) eqn:Hg.
  - rewrite register_email_rejects in Hok; [discriminate|].
    apply orb_true_iff in Hg. destruct Hg as [Hg|Hg];
      apply negb_true_iff in Hg; auto.
  - apply register_guard in Hg. destruct Hg as (e & He & Hat).
    destruct body as [v]. cbn [rb_email] in *. subst v.
    apply includes_char in Hat.
    destruct (store_up env) eqn:Hup.
    + destruct (findOne e (docs db)) as [u|] eqn:Hf.
      * rewrite (register_email_existing env e u db Hup Hat Hf).
        exists e, u. destruct (findOne_email _ _ _ Hf). auto.
      * rewrite (register_email_fresh env e db Hup Hat Hf). cbn [fst snd docs].
        exists e, {| _id := next_id db; email := e; fullName := None;
                     country := None; profession := None; source := None;
                     provider := "local"; registeredAt := now env |}.
        split; [reflexivity|]. split; [reflexivity|].
        split; [|reflexivity].
        rewrite findOne_app_last, Hf. cbn [email]. now rewrite String.eqb_refl.
    + rewrite (register_email_store_down env e db Hup Hat) in Hok. discriminate.
Qed.

Lemma register_email_returns_stored_id_witness :
  exists e u,
    JStr "c@x.com" = JStr e /\
    fst (register_email (up 9000) {| rb_email := JStr "c@x.com" |} db_two) =
      Json 200 (SeededBody "✅ Logic Seeded" (_id u)) /\
    findOne e (docs (snd (register_email (up 9000)
                            {| rb_email := JStr "c@x.com" |} db_two))) = Some u /\
    email u = e.
Proof.
  apply (register_email_returns_stored_id (up 9000)
           {| rb_email := JStr "c@x.com" |} db_two).
  reflexivity.
Defined.

(** X15: what a successful update-details returns as [data] is exactly
    what the store now holds for the body's email: the updated record, or
    null when no record has that email. *)
Theorem update_details_returns_stored (env : Env) (body : DetailsBody) (db : Db) :
  status_of (fst (update_details env body db)) = 200 ->
  fst (update_details env body db) =
    Json 200 (SavedBody "Details saved. You're now part of QPS waitlist!"
                (findOne (str (db_email body))
                   (docs (snd (update_details env body db))))).
Proof.
  intros Hok.
  destruct (truthy (db_email body)) eqn:Ht.
  - destruct (store_up env) eqn:Hup.
    + destruct (findOne (str (db_email body)) (docs db)) as [u|] eqn:Hf.
      * rewrite (update_details_found env body db u Hup Ht Hf). cbn [fst snd docs].
        rewrite findOne_modify_first, Hf, String.eqb_refl; [reflexivity|].
        intros x Hx. exact Hx.
      * rewrite (update_details_missing env body db Hup Ht Hf). cbn [fst snd].
        now rewrite Hf.
    + rewrite (update_details_store_down env body db Hup Ht) in Hok.
      discriminate.
  - rewrite (update_details_rejects env body db Ht) in Hok. discriminate.
Qed.

Lemma update_details_returns_stored_witness :
  fst (update_details (up 9000) details_ann db_two) =
    Json 200 (SavedBody "Details saved. You're now part of QPS waitlist!"
                (findOne "a@x.com"
                   (docs (snd (update_details (up 9000) details_ann db_two))))).
Proof.
  apply (update_details_returns_stored (up 9000) details_ann db_two).
  reflexivity.
Defined.

(** X16: nothing is ever deleted.  Over any sequence of requests the
    number of records does not decrease, and a record that exists for an
    email keeps existing for it with the same [_id]. *)
Theorem records_are_never_removed (reqs : list (Env * Request)) (db : Db) :
  List.length (docs db) <= List.length (docs (run reqs db)) /\
  forall e u, findOne e (docs db) = Some u ->
    exists u', findOne e (docs (run reqs db)) = Some u' /\ _id u' = _id u.
Proof.
  split; [apply length_run|].
  intros e u Hf.
  destruct (run_registeredAt reqs db e u Hf) as (u' & Hf' & _ & Hid). eauto.
Qed.

Lemma records_are_never_removed_witness :
  exists u',
    findOne "b@x.com"
      (docs (run [ (up 9000, register_ann);
                   (up 9100, {| session_user := None;
                                route := GET_auth_linkedin_callback
                                           linkedin_fallback |}) ]
               db_two)) = Some u' /\
    _id u' = 1.
Proof.
  apply (proj2 (records_are_never_removed
                  [ (up 9000, register_ann);
                    (up 9100, {| session_user := None;
                                 route := GET_auth_linkedin_callback
                                            linkedin_fallback |}) ]
                  db_two) "b@x.com" bea).
  reflexivity.
Defined.

(** ** String primitives the handlers rely on *)

Module StringFacts.

Lemma prefix_append (sub s : string) :
  String.prefix sub s = true <-> exists post, s = sub ++ post.
Proof.
  revert s. induction sub as [|a sub IH]; intros s.
  - split; [intros _; now exists s | intros _; now destruct s].
  - destruct s as [|b s].
    + split; [discriminate | intros [post H]; discriminate].
    + change (String.prefix (String a sub) (String b s))
        with (if ascii_dec a b then String.prefix sub s else false).
      destruct (ascii_dec a b) as [->|Hne].
      * rewrite IH. split; intros [post H]; exists post.
        -- cbn. now rewrite H.
        -- cbn in H. now injection H.
      * split; [discriminate|]. intros [post H]. cbn in H.
        injection H as H1 _. congruence.
Qed.

Lemma append_assoc (a b c : string) : (a ++ b) ++ c = a ++ (b ++ c).
Proof. induction a as [|x a IH]; cbn; [reflexivity | now rewrite IH]. Qed.

Lemma append_inj_l (p a b : string) : p ++ a = p ++ b -> a = b.
Proof.
  induction p as [|x p IH]; cbn; [tauto|]. intros H. injection H as H. auto.
Qed.

Lemma hex_digit_value (n : nat) :
  n < 16 ->
  nat_of_ascii (hex_digit n) = if Nat.ltb n 10 then 48 + n else 55 + n.
Proof.
  intros Hn. unfold hex_digit.
  destruct (Nat.ltb_spec n 10); apply nat_ascii_embedding; lia.
Qed.

Lemma hex_digit_inj (a b : nat) :
  a < 16 -> b < 16 -> hex_digit a = hex_digit b -> a = b.
Proof.
  intros Ha Hb H. apply (f_equal nat_of_ascii) in H.
  rewrite !hex_digit_value in H by assumption.
  destruct (Nat.ltb_spec a 10), (Nat.ltb_spec b 10); lia.
Qed.

Lemma hex_digit_unreserved (n : nat) :
  n < 16 -> uri_unreserved (hex_digit n) = true.
Proof.
  intros Hn. do 16 (destruct n as [|n]; [reflexivity|]). lia.
Qed.

Lemma byte_split (c : ascii) :
  nat_of_ascii c / 16 < 16 /\ nat_of_ascii c mod 16 < 16.
Proof.
  pose proof (nat_ascii_bounded c) as Hc. split.
  - apply Nat.Div0.div_lt_upper_bound. lia.
  - apply Nat.mod_upper_bound. lia.
Qed.

Lemma percent_reserved : uri_unreserved "%" = false.
Proof. reflexivity. Qed.

End StringFacts.

Import StringFacts.

(** X17: [includes] is substring search: [s.includes(sub)] holds exactly
    when [s] can be cut into a part before, [sub], and a part after.  In
    particular every string includes the empty string. *)
Theorem includes_is_substring (s sub : string) :
  includes s sub = true <-> substring_of sub s.
Proof.
  unfold substring_of. split.
  - induction s as [|a s IH]; cbn [includes].
    + rewrite orb_false_r. intros H. apply prefix_append in H.
      destruct H as [post H]. now exists "", post.
    + intros H. apply orb_true_iff in H. destruct H as [H|H].
      * apply prefix_append in H. destruct H as [post H]. now exists "", post.
      * destruct (IH H) as (pre & post & Hs).
        exists (String a pre), post. cbn. now rewrite Hs.
  - intros (pre & post & Hs). revert s Hs.
    induction pre as [|a pre IH]; intros s Hs.
    + cbn in Hs.
      assert (Hp : String.prefix sub s = true)
        by (apply prefix_append; now exists post).
      destruct s; cbn [includes]; now rewrite Hp.
    + cbn in Hs. subst s. cbn [includes].
      rewrite (IH _ eq_refl). apply orb_true_r.
Qed.

(** X18: [encodeURIComponent] yields only unreserved characters and '%'.
    So the encoded email cannot end or extend the query string of the
    details redirect: it contains none of '&', '=', '#', '?', '/', '+'
    and no space. *)
Theorem encodeURIComponent_is_query_safe (s : string) :
  (forall c, has_char c (encodeURIComponent s) ->
             uri_unreserved c = true \/ c = "%"%char) /\
  Forall (fun c => ~ has_char c (encodeURIComponent s))
    ["&"; "="; "#"; "?"; "/"; "+"; " "]%char.
Proof.
  assert (Hsafe : forall c, has_char c (encodeURIComponent s) ->
                            uri_unreserved c = true \/ c = "%"%char).
  { unfold has_char. induction s as [|a s IH]; cbn [encodeURIComponent].
    - intros c [].
    - destruct (uri_unreserved a) eqn:Ha; cbn [list_ascii_of_string In].
      + intros c [<-|Hc]; auto.
      + destruct (byte_split a) as [Hhi Hlo].
        intros c [<-|[<-|[<-|Hc]]]; auto using hex_digit_unreserved. }
  split; [exact Hsafe|].
  repeat constructor; intros Hc; destruct (Hsafe _ Hc); discriminate.
Qed.

(** X19: [encodeURIComponent] loses nothing: two strings with the same
    encoding are the same string, so the location of the details redirect
    determines the email it was made for. *)
Theorem encodeURIComponent_injective (s1 s2 : string) :
  (encodeURIComponent s1 = encodeURIComponent s2 -> s1 = s2) /\
  ("https://quantumshell.live/details?email=" ++ encodeURIComponent s1 =
   "https://quantumshell.live/details?email=" ++ encodeURIComponent s2 ->
   s1 = s2).
Proof.
  assert (Hinj : forall a b, encodeURIComponent a = encodeURIComponent b -> a = b).
  { clear. induction a as [|x a IH]; intros [|y b]; cbn [encodeURIComponent].
    - reflexivity.
    - destruct (uri_unreserved y); discriminate.
    - destruct (uri_unreserved x); discriminate.
    - destruct (uri_unreserved x) eqn:Hx, (uri_unreserved y) eqn:Hy.
      + intros [= -> H]. now rewrite (IH _ H).
      + intros [= -> _]. rewrite percent_reserved in Hx. discriminate.
      + intros [= <- _]. rewrite percent_reserved in Hy. discriminate.
      + intros [= Hhi Hlo H].
        destruct (byte_split x) as [Hx1 Hx2], (byte_split y) as [Hy1 Hy2].
        apply hex_digit_inj in Hhi, Hlo; try assumption.
        change (nat_of_ascii x / 16 = nat_of_ascii y / 16) in Hhi.
        change (nat_of_ascii x mod 16 = nat_of_ascii y mod 16) in Hlo.
        assert (Hn : nat_of_ascii x = nat_of_ascii y).
        { pose proof (Nat.div_mod_eq (nat_of_ascii x) 16) as Ex.
          pose proof (Nat.div_mod_eq (nat_of_ascii y) 16) as Ey.
          congruence. }
        apply (f_equal ascii_of_nat) in Hn.
        rewrite !ascii_nat_embedding in Hn. subst y.
        now rewrite (IH _ H). }
  split; [apply Hinj|].
  intros H. apply append_inj_l in H. now apply Hinj.
Qed.

Lemma encodeURIComponent_injective_witness :
  encodeURIComponent "a@x.com" = encodeURIComponent "a@x.com" /\
  "a@x.com" = "a@x.com".
Proof.
  split; [reflexivity|].
  apply (proj1 (encodeURIComponent_injective "a@x.com" "a@x.com")).
  reflexivity.
Defined.

(** ** What every stored record looks like *)

Module RecordFacts.

Import StoreFacts HandlerFacts MoreFacts WriteFacts.

Section Invariant.

Variable P : User -> Prop.

Lemma Forall_modify_first (e : string) (f : User -> User) (l : list User) :
  (forall u, P u -> email u = e -> P (f u)) ->
  Forall P l -> Forall P (modify_first e f l).
Proof.
  intros Hf Hl. induction Hl as [|x l Hx Hl IH]; cbn [modify_first];
    [constructor|].
  destruct (String.eqb_spec (email x) e); constructor; auto.
Qed.

Lemma Forall_findOneAndUpdate (t : Z) (e : string) (upd : Update)
    (opts : Options) (db : Db) :
  (forall u, P u -> email u = e -> P (apply_update upd u)) ->
  P (new_doc t (next_id db) e upd) ->
  Forall P (docs db) ->
  Forall P (docs (snd (findOneAndUpdate t e upd opts db))).
Proof.
  intros Hupd Hnew Hdb. unfold findOneAndUpdate.
  destruct (findOne e (docs db)); cbn [snd docs].
  - now apply Forall_modify_first.
  - destruct (upsert opts); cbn [snd docs]; [|assumption].
    apply Forall_app. split; [assumption | now repeat constructor].
Qed.

(** A property of records that every route's write establishes for the
    record it inserts and keeps for the record it updates holds of every
    record after any sequence of requests. *)
Lemma Forall_run (reqs : list (Env * Request)) (db : Db) :
  (forall r e upd opts, route_write r = Some (e, upd, opts) ->
     (forall u, P u -> email u = e -> P (apply_update upd u)) /\
     (forall t id, P (new_doc t id e upd))) ->
  Forall P (docs db) -> Forall P (docs (run reqs db)).
Proof.
  intros Hw. unfold run. revert db.
  induction reqs as [|[env req] reqs IH]; intros db Hdb; cbn [fold_left];
    [assumption|].
  apply IH. cbn [fst snd]. rewrite app_store, dispatch_store.
  destruct (route_write (route req)) as [[[e upd] opts]|] eqn:Hr;
    [|assumption].
  destruct (store_up env); [|assumption].
  destruct (Hw _ _ _ _ Hr) as [Hu Hn].
  now apply Forall_findOneAndUpdate.
Qed.

End Invariant.

(** The provider a route's update writes, if it writes one. *)
Lemma route_write_provider (r : Route) (e : string) (upd : Update)
    (opts : Options) :
  route_write r = Some (e, upd, opts) ->
  set_provider upd = None \/ set_provider upd = Some "google" \/
  set_provider upd = Some "linkedin".
Proof.
  destruct r as [profile|profile|body|body|]; cbn [route_write].
  - destruct (truthy (first_email profile)); [|discriminate].
    intros [= <- <- <-]. auto.
  - destruct (truthy (or_else (email_claim profile) (first_email profile)));
      [|discriminate].
    intros [= <- <- <-]. auto.
  - destruct (negb (truthy (rb_email body)) ||
              negb (includes (str (rb_email body)) "@")); [discriminate|].
    intros [= <- <- <-]. auto.
  - destruct (truthy (db_email body)); [|discriminate].
    intros [= <- <- <-]. auto.
  - discriminate.
Qed.

End RecordFacts.

Import RecordFacts.

(** X20: the provider of a record is always one of 'local', 'google' and
    'linkedin': in every state reached from the empty store by any
    sequence of requests, no record carries another provider. *)
Theorem provider_is_known (reqs : list (Env * Request)) :
  Forall (fun u => provider u = "local" \/ provider u = "google" \/
                   provider u = "linkedin")
    (docs (run reqs empty_db)).
Proof.
  apply Forall_run; [|constructor].
  intros r e upd opts Hr.
  destruct (route_write_provider r e upd opts Hr) as [Hp|[Hp|Hp]];
    split; intros; unfold new_doc; cbn [apply_update provider]; rewrite Hp;
    auto.
Qed.

(** X21: no record is ever stored under an empty email: in every state
    reached from the empty store by any sequence of requests, the email
    of every record is a non-empty string. *)
Theorem stored_emails_are_nonempty (reqs : list (Env * Request)) :
  Forall (fun u => email u <> "") (docs (run reqs empty_db)).
Proof.
  apply Forall_run; [|constructor].
  intros r e upd opts Hr.
  destruct (route_write_keeps r e upd opts Hr) as (Hk & _ & Hne).
  split.
  - intros u _ Hu. now rewrite (email_apply_update e upd u Hk Hu).
  - intros t id. now rewrite (email_new_doc t id e upd Hk).
Qed.

(** X22: logging in never loses what update-details stored.  When a
    record exists for the email of the assertion, after the Google or
    LinkedIn callback -- whether or not the store answered -- the record
    of that email has the same country, profession, source, registration
    time and id as before. *)
Theorem login_keeps_details (env : Env) (profile : Profile) (db : Db)
    (e : string) (u : User) :
  findOne e (docs db) = Some u ->
  let kept (o : Outcome) :=
    exists u', findOne e (docs (store o)) = Some u' /\
               country u' = country u /\ profession u' = profession u /\
               source u' = source u /\ registeredAt u' = registeredAt u /\
               _id u' = _id u in
  (first_email profile = JStr e -> kept (google_callback env profile db)) /\
  (or_else (email_claim profile) (first_email profile) = JStr e ->
   kept (linkedin_callback env profile db)).
Proof.
  intros Hf kept.
  assert (H : forall r, (exists p, r = GET_auth_google_callback p \/
                                   r = GET_auth_linkedin_callback p) ->
                        route_key r = JStr e -> kept (dispatch env r db)).
  { intros r Hr Hkey. unfold kept. rewrite dispatch_store.
    destruct (route_write r) as [[[k upd] opts]|] eqn:Hw;
      [|exists u; now repeat split].
    destruct (store_up env); [|exists u; now repeat split].
    destruct (route_write_keeps _ _ _ _ Hw) as (Hk & Hkey' & _).
    assert (k = e) by congruence. subst k.
    rewrite findOne_findOneAndUpdate, Hf, String.eqb_refl by assumption.
    eexists. split; [reflexivity|].
    destruct Hr as [p [-> | ->]]; cbn [route_write] in Hw;
      match type of Hw with
      | (if ?c then _ else _) = _ => destruct c; [|discriminate]
      end; injection Hw as _ <- _; now repeat split. }
  split; intros Hkey.
  - apply (H (GET_auth_google_callback profile)); [eauto | exact Hkey].
  - apply (H (GET_auth_linkedin_callback profile)); [eauto | exact Hkey].
Qed.

Lemma login_keeps_details_witness :
  exists u',
    findOne "a@x.com"
      (docs (store (linkedin_callback (up 9000) linkedin_both db_two))) = Some u' /\
    country u' = Some "PK" /\ profession u' = Some "Physicist" /\
    source u' = Some "friend" /\ registeredAt u' = 1000%Z /\ _id u' = 0.
Proof.
  apply (proj2 (login_keeps_details (up 9000) linkedin_both db_two
                  "a@x.com" ann eq_refl)).
  reflexivity.
Defined.
